(** * catBurstBackend: the card game's session, scoring and leaderboard core

    A shallow embedding of the Go server (gin handlers over a Redis store and
    a websocket hub) and the properties of its deck lifecycle, card
    resolution, counters and leaderboard broadcast.

    The repository holds two variants of the same [package main]:
    the full server (with statistics, defuse handling and the websocket hub),
    embedded at top level, and the earlier [main2.go], embedded in
    [Module main2]. *)

From Stdlib Require Import ZArith String Ascii Lia.
From stdpp Require Import base option list gmap strings pretty.

Local Open Scope string_scope.
Local Open Scope list_scope.
Local Open Scope Z_scope.

(** ** strconv: the integer/string conversions the handlers rely on *)

Module strconv.

(** Go's [int] on a 64-bit platform. *)
Definition MaxInt : Z := 9223372036854775807.
Definition MinInt : Z := -9223372036854775808.

(** The value of a machine addition: [a + b] wraps around. *)
Definition wrap (z : Z) : Z := (z + 2 ^ 63) `mod` 2 ^ 64 - 2 ^ 63.

Inductive NumError := ErrSyntax | ErrRange.

(** [ch -= '0'; if ch > 9 { syntax error }] *)
Definition digit (c : ascii) : option Z :=
  let n := Z.of_N (N_of_ascii c) in
  if bool_decide (48 ≤ n ≤ 57) then Some (n - 48) else None.

(** The largest [uint64], the bound of [ParseUint]. *)
Definition MaxUint64 : Z := 18446744073709551615.

(** The digit loop of [strconv.ParseUint] in base 10, byte by byte: a byte
    that is no digit ends it with [(0, ErrSyntax)]; a digit that takes the
    number past [MaxUint64] ends it at once with [(MaxUint64, ErrRange)],
    whatever follows. *)
Fixpoint parseUint (n : Z) (s : string) : Z * option NumError :=
  match s with
  | EmptyString => (n, None)
  | String c r =>
      match digit c with
      | None => (0, Some ErrSyntax)
      | Some d =>
          if bool_decide (MaxUint64 < n * 10 + d) then (MaxUint64, Some ErrRange)
          else parseUint (n * 10 + d) r
      end
  end.

(** [strconv.Atoi] ([ParseInt(s, 10, 0)]; the fast path for short strings
    computes the same): an optional sign, then at least one decimal digit. A
    malformed string gives [(0, ErrSyntax)]; a value outside [int] gives the
    nearest bound together with [ErrRange]. *)
Definition Atoi (s : string) : Z * option NumError :=
  match s with
  | EmptyString => (0, Some ErrSyntax)
  | String c r =>
      let neg := bool_decide (c = "-"%char) in
      let body := if bool_decide (c = "-"%char ∨ c = "+"%char) then r else s in
      match body with
      | EmptyString => (0, Some ErrSyntax)
      | _ =>
          match parseUint 0 body with
          | (_, Some ErrSyntax) => (0, Some ErrSyntax)
          | (un, _) =>
              if neg then
                if bool_decide (2 ^ 63 < un) then (MinInt, Some ErrRange)
                else (- un, None)
              else
                if bool_decide (2 ^ 63 ≤ un) then (MaxInt, Some ErrRange)
                else (un, None)
          end
      end
  end.

(** The decimal text go-redis writes for an [int] argument
    ([strconv.AppendInt(b, n, 10)]). *)
Definition Itoa (n : Z) : string := pretty n.

End strconv.

(** ** math/rand: the two calls the handlers make *)

Module rand.

(** [rand.Intn(n)] for [n > 0]: some value in [[0, n)]; [r] is the
    generator's raw output. *)
Definition Intn (r : nat) (n : nat) : nat := (r `mod` n)%nat.

(** [rand.Shuffle(n, swap)]:
    [for i := n-1; i > 0; i-- { j := Intn(i+1); swap(i, j) }].
    [rs i] is the raw output used at loop index [i]. *)
Fixpoint ShuffleFrom {S : Type} (rs : nat → nat) (i : nat)
    (swap : nat → nat → S → S) (s : S) : S :=
  match i with
  | O => s
  | Datatypes.S i' => ShuffleFrom rs i' swap (swap i (Intn (rs i) (i + 1)) s)
  end.

Definition Shuffle {S : Type} (rs : nat → nat) (n : nat)
    (swap : nat → nat → S → S) (s : S) : S :=
  ShuffleFrom rs (n - 1) swap s.

End rand.

(** ** The Redis store

    Lists and hashes are kept in two maps. The program's list keys
    (["deck:"+user]) and hash keys (["win"], ["lose"], ["user:"+user])
    differ in their first byte, so no command ever meets a key of the
    other type. Commands are taken to reach the server and to be answered:
    the transport errors of the client library are not part of this model. *)

Module redis.

Record Client := mkClient {
  lists : gmap string (list string);
  hashes : gmap string (gmap string string);
}.

Definition empty : Client := mkClient ∅ ∅.

(** A list that becomes empty is removed together with its key. *)
Definition putList (key : string) (l : list string) (db : Client) : Client :=
  mkClient (match l with [] => delete key (lists db) | _ => <[key:=l]> (lists db) end)
           (hashes db).

(** [LRANGE key 0 -1]: the whole list, empty when the key is missing. *)
Definition LRange (db : Client) (key : string) : list string :=
  default [] (lists db !! key).

(** [RPUSH key v1 v2 ...]: append at the tail. *)
Definition RPush (db : Client) (key : string) (values : list string) : Client :=
  putList key (LRange db key ++ values) db.

(** [DEL key] *)
Definition Del (db : Client) (key : string) : Client :=
  mkClient (delete key (lists db)) (delete key (hashes db)).

(** Remove the first [count] elements equal to [v], scanning from the head. *)
Fixpoint removeFromHead (count : nat) (v : string) (l : list string) : list string :=
  match count, l with
  | O, _ => l
  | _, [] => []
  | Datatypes.S n, x :: r =>
      if decide (x = v) then removeFromHead n v r else x :: removeFromHead count v r
  end.

(** [LREM key count v] with [count > 0]. *)
Definition LRem (db : Client) (key : string) (count : nat) (v : string) : Client :=
  putList key (removeFromHead count v (LRange db key)) db.

(** [HGETALL key]: empty when the key is missing. *)
Definition HGetAll (db : Client) (key : string) : gmap string string :=
  default ∅ (hashes db !! key).

(** [HGET key field]: [None] stands for the [redis.Nil] reply. *)
Definition HGet (db : Client) (key field : string) : option string :=
  HGetAll db key !! field.

Fixpoint setFields (h : gmap string string) (values : list string)
    : option (gmap string string) :=
  match values with
  | [] => Some h
  | [_] => None
  | field :: value :: rest => setFields (<[field := value]> h) rest
  end.

(** [HSET key field value [field value ...]], as the variadic
    [HSet(ctx, key, values...)] sends it. The server rejects a call without
    a field or with a field that has no value (wrong number of arguments);
    the store is then left as it was. *)
Definition HSet (db : Client) (key : string) (values : list string) : Client :=
  match values with
  | [] => db
  | _ =>
      match setFields (HGetAll db key) values with
      | Some h => mkClient (lists db) (<[key := h]> (hashes db))
      | None => db
      end
  end.

End redis.

(** ** The server (the full variant) *)

Record Card := mkCard { Type_ : string; Emoji : string }.

(** The card table; the glyphs are display metadata. *)
Definition cards : list Card :=
  [ mkCard "Cat" "ðŸ˜¼"; mkCard "Defuse" "ðŸ™…â€â™‚ï¸"; mkCard "Shuffle" "ðŸ”€";
    mkCard "Exploding Kitten" "ðŸ’£" ].

(** [gin.H]: a JSON object whose values are strings or string lists. *)
Inductive Value := Str (s : string) | Strs (l : list string).

Record Response := JSON { code : Z; body : gmap string Value }.

Definition StatusOK : Z := 200.
Definition StatusBadRequest : Z := 400.

(** The five cards every new deck is made of, in the order of the literal. *)
Definition newDeckCards : list string :=
  ["Cat"; "Cat"; "Defuse"; "Shuffle"; "Exploding Kitten"].

(** [deck[i], deck[j] = deck[j], deck[i]] *)
Definition swapAt (i j : nat) (deck : list string) : list string :=
  match deck !! i, deck !! j with
  | Some a, Some b => <[j := a]> (<[i := b]> deck)
  | _, _ => deck
  end.

Definition initializeDeck (db : redis.Client) (userID : string) (rs : nat → nat)
    : redis.Client :=
  let deckKey := "deck:" +:+ userID in
  let shuffledDeck := rand.Shuffle rs (length newDeckCards) swapAt newDeckCards in
  redis.RPush db deckKey shuffledDeck.

Definition startGame (db : redis.Client) (username : string) (rs : nat → nat)
    : Response * redis.Client :=
  let deckKey := "deck:" +:+ username in
  let existingDeck := redis.LRange db deckKey in
  if bool_decide (0 < length existingDeck)%nat then
    (JSON StatusOK (<["message" := Str "Resuming game"]>
                   (<["username" := Str username]>
                   (<["deck" := Strs existingDeck]> ∅))), db)
  else
    let db := initializeDeck db username rs in
    let newDeck := redis.LRange db deckKey in
    let db := redis.HSet db "win" [username; strconv.Itoa 0] in
    let db := redis.HSet db "lose" [username; strconv.Itoa 0] in
    (JSON StatusOK (<["message" := Str "Game started"]>
                   (<["username" := Str username]>
                   (<["deck" := Strs newDeck]> ∅))), db).

Definition updateUserStats (db : redis.Client) (username : string) (isWin : bool)
    : redis.Client :=
  if isWin then
    let winCount :=
      match redis.HGet db "win" username with
      | None => 0
      | Some winStr =>
          match strconv.Atoi winStr with
          | (n, None) => n
          | (_, Some _) => 0
          end
      end in
    let newWinCount := strconv.wrap (winCount + 1) in
    redis.HSet db "win" [username; strconv.Itoa newWinCount]
  else
    let loseCount :=
      match redis.HGet db "lose" username with
      | None => 0
      | Some loseStr =>
          match strconv.Atoi loseStr with
          | (n, None) => n
          | (_, Some _) => 0
          end
      end in
    let newLoseCount := strconv.wrap (loseCount + 1) in
    redis.HSet db "lose" [username; strconv.Itoa newLoseCount].

Definition resetGame (db : redis.Client) (username : string) (rs : nat → nat)
    : redis.Client :=
  let deck := rand.Shuffle rs (length newDeckCards) swapAt newDeckCards in
  let randomCards := take 5 deck in
  let deckKey := "deck:" +:+ username in
  let db := redis.Del db deckKey in
  let db := redis.RPush db deckKey randomCards in
  redis.HSet db ("user:" +:+ username) ["defuse"; strconv.Itoa 0].

Definition reply (message emoji : string) : Response :=
  JSON StatusOK (<["message" := Str message]> (<["card" := Str emoji]> ∅)).

Definition handleDrawnCard (db : redis.Client) (drawnCard username : string)
    (rs : nat → nat) : Response * redis.Client :=
  let '(cardType, emoji) :=
    match List.find (λ card, bool_decide (Type_ card = drawnCard)) cards with
    | Some card => (Type_ card, Emoji card)
    | None => ("", "")
    end in
  if decide (cardType = "Exploding Kitten") then
    let hasDefuse := default "" (redis.HGet db ("user:" +:+ username) "defuse") in
    let defuseCount := (strconv.Atoi hasDefuse).1 in
    if bool_decide (0 < defuseCount) then
      let db := redis.HSet db ("user:" +:+ username) ["defuse"; strconv.Itoa 0] in
      (reply "You defused the Exploding Kitten using your Defuse card!" emoji, db)
    else
      let db := updateUserStats db username false in
      let db := redis.HSet db ("defuse:" +:+ username) ["false"] in
      (reply "You drew an Exploding Kitten! You lose!" emoji, db)
  else if decide (cardType = "Defuse") then
    let db := redis.HSet db ("user:" +:+ username) ["defuse"; strconv.Itoa 1] in
    (reply "You drew a Defuse card! Keep this to defuse an Exploding Kitten." emoji, db)
  else if decide (cardType = "Shuffle") then
    let db := resetGame db username rs in
    (reply "You drew a Shuffle card! The deck is reshuffled." emoji, db)
  else
    (reply "You drew a Cat card! One Cat card has been removed from your deck." emoji, db).

(** [r] is the raw output behind [rand.Intn(len(deck))]; [rs] feeds the
    shuffle of a reset. *)
Definition drawCard (db : redis.Client) (username : string) (r : nat) (rs : nat → nat)
    : Response * redis.Client :=
  let deckKey := "deck:" +:+ username in
  let deck := redis.LRange db deckKey in
  if decide (length deck = 0%nat) then
    let db := updateUserStats db username true in
    (JSON StatusBadRequest (<["message" := Str "No cards left in the deck"]> ∅), db)
  else
    let cardIndex := rand.Intn r (length deck) in
    let drawnCard := default "" (deck !! cardIndex) in
    let db := redis.LRem db deckKey 1 drawnCard in
    handleDrawnCard db drawnCard username rs.

(** ** The leaderboard and the websocket hub *)

(** One leaderboard row: [map[string]string] with the keys
    ["username"], ["win"] and ["lose"]. *)
Definition statsRow (username wins loses : string) : gmap string string :=
  <["username" := username]> (<["win" := wins]> (<["lose" := loses]> ∅)).

(** [for k, v := range m] visits every entry of [m] once, in an order the
    language leaves open: [order] is one such order. *)
Definition rangeOver {K V} `{Countable K} (m : gmap K V) (order : list (K * V)) : Prop :=
  order ≡ₚ map_to_list m.

(** [order] is the order in which [range winData] yields its entries. *)
Definition fetchAllUserStats (db : redis.Client) (order : list (string * string))
    : list (gmap string string) :=
  let loseData := redis.HGetAll db "lose" in
  foldl (λ userStats '(username, wins),
           let loses := default "0" (loseData !! username) in
           userStats ++ [statsRow username wins loses])
        [] order.

(** A websocket connection is known by its handle. *)
Definition Conn := nat.

(** The hub: the global [clients] map, and for every connection the
    payloads written to it so far and whether it has been closed. *)
Record Hub := mkHub {
  clients : gmap Conn bool;
  written : gmap Conn (list (list (gmap string string)));
  closed : gset Conn;
}.

Definition noClients : Hub := mkHub ∅ ∅ ∅.

(** [conn.WriteJSON(v)]: [fails conn] tells whether the peer can no longer
    be written to; a closed connection cannot be written to either. The
    first component is [err != nil]. *)
Definition WriteJSON (fails : Conn → bool) (h : Hub) (conn : Conn)
    (v : list (gmap string string)) : bool * Hub :=
  if fails conn || bool_decide (conn ∈ closed h) then (true, h)
  else (false, mkHub (clients h)
                     (<[conn := default [] (written h !! conn) ++ [v]]> (written h))
                     (closed h)).

(** [conn.Close()] *)
Definition Close (h : Hub) (conn : Conn) : Hub :=
  mkHub (clients h) (written h) ({[conn]} ∪ closed h).

(** [delete(clients, conn)] *)
Definition unregister (h : Hub) (conn : Conn) : Hub :=
  mkHub (delete conn (clients h)) (written h) (closed h).

Definition sendLeaderboard (db : redis.Client) (order : list (string * string))
    (fails : Conn → bool) (h : Hub) (conn : Conn) : bool * Hub :=
  WriteJSON fails h conn (fetchAllUserStats db order).

(** The body of the loop of [broadcastLeaderboard]: write to one client;
    on an error close the connection and delete it from [clients]. *)
Definition broadcastTo (fails : Conn → bool)
    (leaderboardData : list (gmap string string)) (h : Hub) (conn : Conn) : Hub :=
  match WriteJSON fails h conn leaderboardData with
  | (true, h) => unregister (Close h conn) conn
  | (false, h) => h
  end.

(** [connOrder] is the order in which [range clients] yields the handles. *)
Definition broadcastLeaderboard (db : redis.Client) (order : list (string * string))
    (fails : Conn → bool) (connOrder : list Conn) (h : Hub) : Hub :=
  let leaderboardData := fetchAllUserStats db order in
  foldl (broadcastTo fails leaderboardData) h connOrder.

(** [serveWs] up to its read loop: register the connection and send it the
    leaderboard; when that first write fails the deferred clean-up runs. *)
Definition serveWs (db : redis.Client) (order : list (string * string))
    (fails : Conn → bool) (h : Hub) (conn : Conn) : Hub :=
  let h := mkHub (<[conn := true]> (clients h)) (written h) (closed h) in
  match sendLeaderboard db order fails h conn with
  | (true, h) => Close (unregister h conn) conn
  | (false, h) => h
  end.

(** The process state: the two globals [rdb] and [clients] (with the
    connections behind it). *)
Record Server := mkServer { rdb : redis.Client; hub : Hub }.

Inductive Request :=
  | PostStartGame (username : string)
  | PostDrawCard (username : string)
  | GetWs (conn : Conn).

(** What a request does not decide by itself: the generator's outputs, the
    map iteration order and the state of the peers. *)
Record Env := mkEnv {
  intn : nat;
  shuffle : nat → nat;
  winOrder : list (string * string);
  sendFails : Conn → bool;
}.

(** The route table of [main]. *)
Definition route (srv : Server) (req : Request) (env : Env) : option Response * Server :=
  match req with
  | PostStartGame username =>
      let '(resp, db) := startGame (rdb srv) username (shuffle env) in
      (Some resp, mkServer db (hub srv))
  | PostDrawCard username =>
      let '(resp, db) := drawCard (rdb srv) username (intn env) (shuffle env) in
      (Some resp, mkServer db (hub srv))
  | GetWs conn =>
      (None, mkServer (rdb srv)
                      (serveWs (rdb srv) (winOrder env) (sendFails env) (hub srv) conn))
  end.

(** ** The earlier variant, [main2.go]

    It shares the card table and [initializeDeck]; it keeps no statistics and
    its websocket handler sends nothing. *)

Module main2.

Definition startGame (db : redis.Client) (username : string) (rs : nat → nat)
    : Response * redis.Client :=
  let deckKey := "deck:" +:+ username in
  let existingDeck := redis.LRange db deckKey in
  if bool_decide (0 < length existingDeck)%nat then
    (JSON StatusOK (<["message" := Str "Resuming game"]>
                   (<["username" := Str username]>
                   (<["deck" := Strs existingDeck]> ∅))), db)
  else
    let db := initializeDeck db username rs in
    let newDeck := redis.LRange db deckKey in
    (JSON StatusOK (<["message" := Str "Game started"]>
                   (<["username" := Str username]>
                   (<["deck" := Strs newDeck]> ∅))), db).

Definition resetGame (db : redis.Client) (username : string) : redis.Client :=
  let deck := newDeckCards in
  let deckKey := "deck:" +:+ username in
  let db := redis.Del db deckKey in
  redis.RPush db deckKey deck.

Definition handleDrawnCard (db : redis.Client) (drawnCard username : string)
    : Response * redis.Client :=
  let '(cardType, emoji) :=
    match List.find (λ card, bool_decide (Type_ card = drawnCard)) cards with
    | Some card => (Type_ card, Emoji card)
    | None => ("", "")
    end in
  if decide (cardType = "Exploding Kitten") then
    (reply "You drew an Exploding Kitten! You lose!" emoji, resetGame db username)
  else if decide (cardType = "Defuse") then
    let db := redis.HSet db ("user:" +:+ username) ["defuse"; strconv.Itoa 1] in
    (reply "You drew a Defuse card! Keep this to defuse an Exploding Kitten." emoji, db)
  else if decide (cardType = "Shuffle") then
    (reply "You drew a Shuffle card! The deck is reshuffled." emoji, resetGame db username)
  else
    (reply "You drew a Cat card!" emoji, db).

Definition drawCard (db : redis.Client) (username : string) (r : nat)
    : Response * redis.Client :=
  let deckKey := "deck:" +:+ username in
  let deck := redis.LRange db deckKey in
  if decide (length deck = 0%nat) then
    (JSON StatusBadRequest (<["message" := Str "No cards left in the deck"]> ∅), db)
  else
    let cardIndex := rand.Intn r (length deck) in
    let drawnCard := default "" (deck !! cardIndex) in
    let db := redis.LRem db deckKey 1 drawnCard in
    handleDrawnCard db drawnCard username.

End main2.

(** ** What the properties speak about *)

(** The stored deck of a user. *)
Definition deckOf (db : redis.Client) (username : string) : list string :=
  redis.LRange db ("deck:" +:+ username).

(** A counter as [updateUserStats] reads it: a missing or unreadable
    entry counts as zero. *)
Definition counter (db : redis.Client) (namespace username : string) : Z :=
  match redis.HGet db namespace username with
  | None => 0
  | Some str =>
      match strconv.Atoi str with
      | (n, None) => n
      | (_, Some _) => 0
      end
  end.

Definition wins (db : redis.Client) (username : string) : Z := counter db "win" username.
Definition losses (db : redis.Client) (username : string) : Z := counter db "lose" username.

(** The defuse count as the exploding-kitten branch reads it. *)
Definition defuseCharges (db : redis.Client) (username : string) : Z :=
  (strconv.Atoi (default "" (redis.HGet db ("user:" +:+ username) "defuse"))).1.

(** The replies of [drawCard], by the outcome they announce. *)
Definition deckExhausted : Response :=
  JSON StatusBadRequest (<["message" := Str "No cards left in the deck"]> ∅).
Definition playerLost : Response :=
  reply "You drew an Exploding Kitten! You lose!" "ðŸ’£".
Definition defused : Response :=
  reply "You defused the Exploding Kitten using your Defuse card!" "ðŸ’£".
Definition defuseAcquired : Response :=
  reply "You drew a Defuse card! Keep this to defuse an Exploding Kitten." "ðŸ™…â€â™‚ï¸".
Definition deckReshuffled : Response :=
  reply "You drew a Shuffle card! The deck is reshuffled." "ðŸ”€".

(** The two replies of [startGame]. *)
Definition gameStarted (username : string) (deck : list string) : Response :=
  JSON StatusOK (<["message" := Str "Game started"]>
                (<["username" := Str username]>
                (<["deck" := Strs deck]> ∅))).
Definition gameResumed (username : string) (deck : list string) : Response :=
  JSON StatusOK (<["message" := Str "Resuming game"]>
                (<["username" := Str username]>
                (<["deck" := Strs deck]> ∅))).

(** The card a draw selects: the one at the generated position. *)
Definition selectedCard (db : redis.Client) (username : string) (r : nat) : string :=
  let deck := deckOf db username in
  default "" (deck !! rand.Intn r (length deck)).

(** The stores the two game handlers produce when the server starts on an
    empty store. *)
Inductive reachable : redis.Client → Prop :=
  | reachable_empty : reachable redis.empty
  | reachable_startGame db username rs :
      reachable db → reachable (startGame db username rs).2
  | reachable_drawCard db username r rs :
      reachable db → reachable (drawCard db username r rs).2.

(** Whoever has a deck or a losses entry has a wins entry. *)
Definition paired (db : redis.Client) : Prop :=
  ∀ username,
    deckOf db username ≠ [] ∨ is_Some (redis.HGet db "lose" username) →
    is_Some (redis.HGet db "win" username).

(** ** Scenarios *)

(** A generator that always yields 0. *)
Definition zeros : nat → nat := λ _, 0%nat.

(** bob has started a game on an empty store; with [zeros] his deck is
    [Cat; Defuse; Shuffle; Exploding Kitten; Cat]. *)
Definition started : redis.Client := (startGame redis.empty "bob" zeros).2.

(** bob's counters are there but his deck list is gone. *)
Definition drained : redis.Client := redis.Del started "deck:bob".

(** bob holds [n] defuse charges while his deck is still complete. *)
Definition charged (n : Z) : redis.Client :=
  redis.HSet started "user:bob" ["defuse"; strconv.Itoa n].

(** alice draws before she has ever started a game, then starts one. *)
Definition drewFirst : redis.Client := (drawCard redis.empty "alice" 0 zeros).2.

(** A store in which bob is known to the losses namespace only. *)
Definition onlyLoss : redis.Client := redis.HSet redis.empty "lose" ["bob"; "1"].

(** Healthy peers, the generator picking position 3, and the one order in
    which a single-entry wins namespace is ranged over. *)
Definition calm : Env := mkEnv 3 zeros [("bob", "0")] (λ _, false).

(** bob has started a game and observer 7 has connected: it has been sent
    the leaderboard once and is registered. *)
Definition watched : Server :=
  (route (mkServer started noClients) (GetWs 7%nat) calm).2.

(** Three registered observers, none written to yet. *)
Definition threeClients : Hub :=
  mkHub (<[1%nat := true]> (<[2%nat := true]> (<[3%nat := true]> ∅))) ∅ ∅.

(** The outputs [Intn] can give during a shuffle of five cards: one of two
    at index 1, of three at index 2, of four at index 3, of five at index 4. *)
Definition choiceVectors : list (list nat) :=
  flat_map (λ j1, flat_map (λ j2, flat_map (λ j3,
    map (λ j4, [0; j1; j2; j3; j4]%nat) (seq 0 5)) (seq 0 4)) (seq 0 3)) (seq 0 2).

(** A generator that yields [js] index by index. *)
Definition outputs (js : list nat) : nat → nat := λ i, nth i js 0%nat.

(** Closed statements about the scenarios are settled by running the code. *)
Ltac by_evaluation :=
  intros; repeat split; vm_compute; first [reflexivity | discriminate | done].

(** Two keys with different prefixes are different keys. *)
Ltac key_clash := cbv [String.append] in *; congruence.

(** ** More of the server *)

(** The deferred function of [serveWs], run when its read loop ends:
    delete the connection from [clients], then close it. *)
Definition serveWsDone (h : Hub) (conn : Conn) : Hub :=
  Close (unregister h conn) conn.

(** What the game handlers keep true of one user's data: the deck is made of
    cards of the five; without a deck there is no losses entry and no defuse
    charge; with a deck the Shuffle card is in it, the wins entry reads "0"
    and there is a losses entry; the defuse count is 0, or it is 1 and the
    Defuse card has left the deck. *)
Definition settled (db : redis.Client) (username : string) : Prop :=
  deckOf db username ⊆+ newDeckCards ∧
  (deckOf db username = [] →
     redis.HGet db "lose" username = None ∧ defuseCharges db username = 0) ∧
  (deckOf db username ≠ [] →
     "Shuffle" ∈ deckOf db username ∧
     redis.HGet db "win" username = Some "0" ∧
     is_Some (redis.HGet db "lose" username)) ∧
  (defuseCharges db username = 0 ∨
   defuseCharges db username = 1 ∧ "Defuse" ∉ deckOf db username).

(** bob's losses entry holds the largest [int]. *)
Definition brimful : redis.Client :=
  redis.HSet started "lose" ["bob"; "9223372036854775807"].

(** bob's losses entry holds text that is no number. *)
Definition garbled : redis.Client := redis.HSet started "lose" ["bob"; "abc"].

(** bob and alice have both started a game. *)
Definition twoPlayers : redis.Client := (startGame started "alice" (outputs [0; 1; 1; 2; 3]%nat)).2.

(** * Properties *)

(** ** Numbers written to the store are read back *)

Section strconv_facts.

Import strconv.

Lemma digit_pretty_N_char (d : N) :
  (d < 10)%N → digit (pretty_N_char d) = Some (Z.of_N d).
Proof.
  intros Hd.
  assert (Hcases : d ∈ [0; 1; 2; 3; 4; 5; 6; 7; 8; 9]%N).
  { rewrite !elem_of_cons. lia. }
  rewrite !elem_of_cons in Hcases.
  destruct Hcases as [->|[->|[->|[->|[->|[->|[->|[->|[->|[->|Hnil]]]]]]]]]];
    [reflexivity..|by apply elem_of_nil in Hnil].
Qed.

(** The digits [pretty_N_go] puts in front of [s] extend any number read so
    far by the decimal expansion of [x], as long as that fits [uint64]. *)
Lemma parseUint_pretty_N_go (x : N) :
  ∀ s, ∃ k, 0 ≤ k ∧
    ∀ n, 0 ≤ n → n * 10 ^ k + Z.of_N x ≤ MaxUint64 →
      parseUint n (pretty_N_go x s) = parseUint (n * 10 ^ k + Z.of_N x) s.
Proof.
  induction (N.lt_wf_0 x) as [x _ IH]. intros s.
  destruct (decide (0 < x)%N) as [Hpos|Hzero].
  - rewrite pretty_N_go_step by done.
    destruct (IH (x `div` 10)%N (N.div_lt x 10 Hpos eq_refl)
                (String (pretty_N_char (x `mod` 10)) s)) as (k & Hk & Hparse).
    exists (k + 1). split; [lia|]. intros n Hn Hfits.
    assert (Hx : Z.of_N x = 10 * Z.of_N (x `div` 10) + Z.of_N (x `mod` 10))
      by (pose proof (N.div_mod x 10); lia).
    assert (Hpow : 0 ≤ n * 10 ^ k)
      by (apply Z.mul_nonneg_nonneg; [done|apply Z.pow_nonneg; lia]).
    rewrite Z.pow_add_r in * by lia. change (10 ^ 1) with 10 in *.
    assert (Hstep : (n * 10 ^ k + Z.of_N (x `div` 10)) * 10 + Z.of_N (x `mod` 10)
                    = n * (10 ^ k * 10) + Z.of_N x) by lia.
    assert (Hbefore : n * 10 ^ k + Z.of_N (x `div` 10) ≤ MaxUint64).
    { pose proof (N2Z.is_nonneg (x `div` 10)) as Hq.
      pose proof (N2Z.is_nonneg (x `mod` 10)) as Hm.
      revert Hx Hq Hm Hfits Hpow.
      generalize (Z.of_N (x `div` 10)) (Z.of_N (x `mod` 10)) (Z.of_N x) (10 ^ k).
      intros; lia. }
    rewrite Hparse by done. cbn [parseUint].
    rewrite digit_pretty_N_char by (apply N.mod_lt; lia).
    rewrite Hstep. by rewrite bool_decide_eq_false_2 by lia.
  - assert (x = 0%N) as -> by lia. exists 0. split; [lia|]. intros n _ _.
    rewrite pretty_N_go_0. f_equal. lia.
Qed.

Lemma parseUint_pretty_N (x : N) :
  Z.of_N x ≤ MaxUint64 → parseUint 0 (pretty x) = (Z.of_N x, None).
Proof.
  intros Hfits. unfold pretty, pretty_N. case_decide as Hx; [by subst|].
  destruct (parseUint_pretty_N_go x "") as (k & _ & Hparse).
  rewrite Hparse by (rewrite ?Z.mul_0_l; lia). reflexivity.
Qed.

(** An unsigned decimal text that reads as [un] goes through [Atoi]. *)
Lemma Atoi_unsigned (s : string) (un : Z) :
  s ≠ "" → parseUint 0 s = (un, None) → 0 ≤ un ≤ MaxInt → Atoi s = (un, None).
Proof.
  intros Hne Hparse Hrange. destruct s as [|c r]; [done|].
  assert (Hc : ¬ (c = "-"%char ∨ c = "+"%char)).
  { intros [->| ->]; discriminate Hparse. }
  unfold Atoi. rewrite (bool_decide_eq_false_2 _ Hc), Hparse.
  rewrite (bool_decide_eq_false_2 (c = "-"%char)) by tauto.
  by rewrite bool_decide_eq_false_2 by (unfold MaxInt in Hrange; lia).
Qed.

Lemma pretty_N_nonempty (x : N) : Z.of_N x ≤ MaxUint64 → pretty x ≠ "".
Proof.
  intros Hfits Hempty. pose proof (parseUint_pretty_N x Hfits) as Hparse.
  rewrite Hempty in Hparse. cbn in Hparse.
  unfold pretty, pretty_N in Hempty. case_decide; [done|].
  injection Hparse. lia.
Qed.

Lemma Itoa_pos (p : positive) : Itoa (Z.pos p) = pretty (N.pos p).
Proof. reflexivity. Qed.

Lemma Itoa_neg (p : positive) : Itoa (Z.neg p) = String "-" (pretty (N.pos p)).
Proof. reflexivity. Qed.

(** Round trip: what [HSet] writes for an [int], [Atoi] reads back. *)
Lemma Atoi_Itoa (n : Z) : MinInt ≤ n ≤ MaxInt → Atoi (Itoa n) = (n, None).
Proof.
  intros Hrange. unfold MinInt, MaxInt in Hrange. destruct n as [|p|p].
  - reflexivity.
  - assert (Hfits : Z.of_N (N.pos p) ≤ MaxUint64) by (unfold MaxUint64; lia).
    rewrite Itoa_pos. apply Atoi_unsigned;
      [by apply pretty_N_nonempty|by apply parseUint_pretty_N|].
    unfold MaxInt. lia.
  - assert (Hfits : Z.of_N (N.pos p) ≤ MaxUint64) by (unfold MaxUint64; lia).
    rewrite Itoa_neg.
    pose proof (parseUint_pretty_N (N.pos p) Hfits) as Hparse.
    pose proof (pretty_N_nonempty (N.pos p) Hfits) as Hne.
    destruct (pretty (N.pos p)) as [|c r] eqn:Hs; [done|].
    unfold Atoi. rewrite bool_decide_eq_true_2 by (by left).
    rewrite Hparse. rewrite (bool_decide_eq_true_2 ("-"%char = "-"%char)) by done.
    cbn [Z.of_N]. rewrite bool_decide_eq_false_2 by lia. done.
Qed.

(** What the digit loop returns is a [uint64]. *)
Lemma parseUint_range (s : string) :
  ∀ n, 0 ≤ n ≤ MaxUint64 → 0 ≤ (parseUint n s).1 ≤ MaxUint64.
Proof.
  induction s as [|c r IH]; intros n Hn; [done|].
  cbn [parseUint]. destruct (digit c) as [d|] eqn:Hd; [|done].
  assert (0 ≤ d).
  { unfold digit in Hd. case_bool_decide; [|done]. injection Hd. lia. }
  case_bool_decide; [done|]. apply IH. lia.
Qed.

Lemma wrap_range (z : Z) : MinInt ≤ wrap z ≤ MaxInt.
Proof. unfold wrap, MinInt, MaxInt. pose proof (Z.mod_pos_bound (z + 2 ^ 63) (2 ^ 64)). lia. Qed.

Lemma wrap_small (z : Z) : MinInt ≤ z ≤ MaxInt → wrap z = z.
Proof.
  unfold wrap, MinInt, MaxInt. intros Hz.
  rewrite Z.mod_small by lia. lia.
Qed.

Lemma Atoi_range (s : string) : MinInt ≤ (Atoi s).1 ≤ MaxInt.
Proof.
  unfold Atoi. destruct s as [|c r]; [done|].
  set (body := if bool_decide _ then r else String c r).
  destruct body as [|c' r'] eqn:Hbody; [done|].
  pose proof (parseUint_range (String c' r') 0) as Hun.
  destruct (parseUint 0 (String c' r')) as [un [[]|]]; [done| |];
    cbn [fst] in Hun; (destruct Hun as [Hlow _]; [by unfold MaxUint64|]);
    repeat case_bool_decide; cbn; unfold MinInt, MaxInt in *; lia.
Qed.

End strconv_facts.

(** ** The store commands *)

Section redis_facts.

Import redis.

Implicit Types (db : Client) (key field : string) (l : list string).

Lemma LRange_putList db key l key' :
  LRange (putList key l db) key' = if decide (key = key') then l else LRange db key'.
Proof.
  unfold LRange, putList. destruct l; cbn [lists]; case_decide; subst;
    by simplify_map_eq.
Qed.

Lemma hashes_putList db key l : hashes (putList key l db) = hashes db.
Proof. reflexivity. Qed.

Lemma HGet_putList db key l key' field :
  HGet (putList key l db) key' field = HGet db key' field.
Proof. reflexivity. Qed.

Lemma HGet_RPush db key l key' field :
  HGet (RPush db key l) key' field = HGet db key' field.
Proof. reflexivity. Qed.

Lemma HGet_LRem db key count v key' field :
  HGet (LRem db key count v) key' field = HGet db key' field.
Proof. reflexivity. Qed.

Lemma LRange_RPush db key l key' :
  LRange (RPush db key l) key' =
    if decide (key = key') then LRange db key ++ l else LRange db key'.
Proof. apply LRange_putList. Qed.

Lemma LRange_LRem db key count v key' :
  LRange (LRem db key count v) key' =
    if decide (key = key') then removeFromHead count v (LRange db key)
    else LRange db key'.
Proof. apply LRange_putList. Qed.

Lemma LRange_Del db key key' :
  LRange (Del db key) key' = if decide (key = key') then [] else LRange db key'.
Proof. unfold LRange, Del; cbn [lists]. case_decide; subst; by simplify_map_eq. Qed.

Lemma HGet_Del db key key' field :
  key ≠ key' → HGet (Del db key) key' field = HGet db key' field.
Proof. intros. unfold HGet, HGetAll, Del; cbn [hashes]. by simplify_map_eq. Qed.

Lemma lists_HSet db key values : lists (HSet db key values) = lists db.
Proof. unfold HSet. destruct values; [done|]. by destruct (setFields _ _). Qed.

Lemma LRange_HSet db key values key' : LRange (HSet db key values) key' = LRange db key'.
Proof. unfold LRange. by rewrite lists_HSet. Qed.

Lemma HGetAll_HSet db key field value key' :
  HGetAll (HSet db key [field; value]) key' =
    if decide (key = key') then <[field := value]> (HGetAll db key)
    else HGetAll db key'.
Proof.
  unfold HGetAll, HSet; cbn [setFields hashes]. case_decide; subst; by simplify_map_eq.
Qed.

Lemma HGet_HSet db key field value key' field' :
  HGet (HSet db key [field; value]) key' field' =
    if decide (key = key' ∧ field = field') then Some value else HGet db key' field'.
Proof.
  unfold HGet. rewrite HGetAll_HSet.
  repeat case_decide; destruct_and?; subst; by simplify_map_eq.
Qed.

(** A field without a value: the command is refused. *)
Lemma HSet_lone_value db key value : HSet db key [value] = db.
Proof. reflexivity. Qed.

End redis_facts.

(** ** The shuffle *)

Section shuffle_facts.

Lemma swapAt_Permutation (i j : nat) (deck : list string) : swapAt i j deck ≡ₚ deck.
Proof.
  unfold swapAt. destruct (deck !! i) as [a|] eqn:Hi; [|done].
  destruct (deck !! j) as [b|] eqn:Hj; [|done].
  by apply Permutation_insert_swap.
Qed.

Lemma ShuffleFrom_Permutation (rs : nat → nat) (i : nat) (deck : list string) :
  rand.ShuffleFrom rs i swapAt deck ≡ₚ deck.
Proof.
  revert deck. induction i as [|i IH]; intros deck; [done|].
  cbn [rand.ShuffleFrom]. by rewrite IH, swapAt_Permutation.
Qed.

Lemma Shuffle_Permutation (rs : nat → nat) (n : nat) (deck : list string) :
  rand.Shuffle rs n swapAt deck ≡ₚ deck.
Proof. apply ShuffleFrom_Permutation. Qed.

Lemma Shuffle_length (rs : nat → nat) (n : nat) (deck : list string) :
  length (rand.Shuffle rs n swapAt deck) = length deck.
Proof. apply Permutation_length, Shuffle_Permutation. Qed.

(** The deck a new game or a reset stores. *)
Lemma take_shuffled (rs : nat → nat) :
  take 5 (rand.Shuffle rs (length newDeckCards) swapAt newDeckCards)
  = rand.Shuffle rs (length newDeckCards) swapAt newDeckCards.
Proof. apply take_ge. by rewrite Shuffle_length. Qed.

Lemma shuffled_nonempty (rs : nat → nat) :
  rand.Shuffle rs (length newDeckCards) swapAt newDeckCards ≠ [].
Proof.
  intros Hnil. pose proof (Shuffle_length rs (length newDeckCards) newDeckCards) as Hlen.
  by rewrite Hnil in Hlen.
Qed.

End shuffle_facts.

(** ** What each step does to the deck, the counters and the defuse count *)

Section observers.

Import redis strconv.

Implicit Types (db : Client) (username : string).

Lemma deck_key_inj username username' :
  "deck:" +:+ username = "deck:" +:+ username' → username = username'.
Proof. intros. key_clash. Qed.

Lemma deckOf_HSet db key values username :
  deckOf (HSet db key values) username = deckOf db username.
Proof. apply LRange_HSet. Qed.

Lemma deckOf_LRem db username count v :
  deckOf (LRem db ("deck:" +:+ username) count v) username
  = removeFromHead count v (deckOf db username).
Proof. unfold deckOf. rewrite LRange_LRem. by rewrite decide_True. Qed.

Lemma deckOf_LRem_ne db username count v username' :
  username ≠ username' →
  deckOf (LRem db ("deck:" +:+ username) count v) username' = deckOf db username'.
Proof.
  intros Hne. unfold deckOf. rewrite LRange_LRem.
  rewrite decide_False; [done|]. by intros ?%deck_key_inj.
Qed.

(** Reading a counter an [int] was written to. *)
Lemma counter_HSet db namespace username (n : Z) namespace' username' :
  MinInt ≤ n ≤ MaxInt →
  counter (HSet db namespace [username; Itoa n]) namespace' username' =
    if decide (namespace = namespace' ∧ username = username') then n
    else counter db namespace' username'.
Proof.
  intros Hn. unfold counter. rewrite HGet_HSet. case_decide; [|done].
  by rewrite Atoi_Itoa.
Qed.

Lemma defuseCharges_HSet db key (n : Z) username :
  MinInt ≤ n ≤ MaxInt →
  defuseCharges (HSet db key ["defuse"; Itoa n]) username =
    if decide (key = "user:" +:+ username) then n else defuseCharges db username.
Proof.
  intros Hn. unfold defuseCharges. rewrite HGet_HSet.
  destruct (decide (key = "user:" +:+ username)) as [->|Hk].
  - rewrite decide_True by done.
    change (default "" (Some (Itoa n))) with (Itoa n). by rewrite Atoi_Itoa.
  - rewrite decide_False; [done|]. by intros [? _].
Qed.

(** A counter entry does not touch the defuse flag of anybody. *)
Lemma defuseCharges_HSet_counter db namespace username value username' :
  namespace = "win" ∨ namespace = "lose" →
  defuseCharges (HSet db namespace [username; value]) username'
  = defuseCharges db username'.
Proof.
  intros Hns. unfold defuseCharges. rewrite HGet_HSet.
  rewrite decide_False; [done|]. intros [Heq _]. destruct Hns; subst; key_clash.
Qed.

(** Nor does the defuse flag touch a counter. *)
Lemma counter_HSet_user db username field value namespace username' :
  namespace = "win" ∨ namespace = "lose" →
  counter (HSet db ("user:" +:+ username) [field; value]) namespace username'
  = counter db namespace username'.
Proof.
  intros Hns. unfold counter. rewrite HGet_HSet.
  rewrite decide_False; [done|]. intros [Heq _]. destruct Hns; subst; key_clash.
Qed.

Lemma updateUserStats_win db username :
  updateUserStats db username true
  = HSet db "win" [username; Itoa (wrap (wins db username + 1))].
Proof. reflexivity. Qed.

Lemma updateUserStats_lose db username :
  updateUserStats db username false
  = HSet db "lose" [username; Itoa (wrap (losses db username + 1))].
Proof. reflexivity. Qed.

Lemma counter_updateUserStats db username isWin namespace username' :
  counter (updateUserStats db username isWin) namespace username' =
    if decide ((if isWin then "win" else "lose") = namespace ∧ username = username')
    then wrap (counter db namespace username' + 1)
    else counter db namespace username'.
Proof.
  destruct isWin; [rewrite updateUserStats_win|rewrite updateUserStats_lose];
    rewrite counter_HSet by apply wrap_range;
    case_decide; destruct_and?; by subst.
Qed.

Lemma deckOf_updateUserStats db username isWin username' :
  deckOf (updateUserStats db username isWin) username' = deckOf db username'.
Proof. destruct isWin; apply deckOf_HSet. Qed.

Lemma defuseCharges_updateUserStats db username isWin username' :
  defuseCharges (updateUserStats db username isWin) username'
  = defuseCharges db username'.
Proof.
  destruct isWin; [rewrite updateUserStats_win|rewrite updateUserStats_lose];
    apply defuseCharges_HSet_counter; auto.
Qed.

(** [resetGame]: the deck, the defuse count, and what it leaves alone. *)
Lemma deckOf_resetGame db username rs username' :
  deckOf (resetGame db username rs) username' =
    if decide (username = username')
    then rand.Shuffle rs (length newDeckCards) swapAt newDeckCards
    else deckOf db username'.
Proof.
  unfold resetGame, deckOf. rewrite LRange_HSet, LRange_RPush, !LRange_Del.
  destruct (decide (username = username')) as [->|Hu].
  - rewrite !decide_True by done. cbn [app]. apply take_shuffled.
  - rewrite !decide_False; [done|by intros ?%deck_key_inj..].
Qed.

Lemma defuseCharges_resetGame db username rs username' :
  defuseCharges (resetGame db username rs) username' =
    if decide (username = username') then 0
    else defuseCharges db username'.
Proof.
  unfold resetGame. rewrite defuseCharges_HSet by done.
  destruct (decide (username = username')) as [->|Hu].
  - by rewrite decide_True.
  - rewrite decide_False by key_clash.
    unfold defuseCharges. rewrite HGet_RPush, HGet_Del; [done|key_clash].
Qed.

Lemma counter_resetGame db username rs namespace username' :
  namespace = "win" ∨ namespace = "lose" →
  counter (resetGame db username rs) namespace username' = counter db namespace username'.
Proof.
  intros Hns. unfold resetGame. rewrite counter_HSet_user by done.
  unfold counter. rewrite HGet_RPush, HGet_Del; [done|].
  destruct Hns as [-> | ->]; key_clash.
Qed.

End observers.

(** ** Card resolution and the draw *)

Section draw_facts.

Import redis strconv.

Implicit Types (db : Client) (username : string) (rs : nat → nat).

(** The transition table of [handleDrawnCard], by drawn card. *)
Lemma handleDrawnCard_cases db (drawnCard : string) username rs :
  handleDrawnCard db drawnCard username rs =
    if decide (drawnCard = "Exploding Kitten") then
      if bool_decide (0 < defuseCharges db username)
      then (defused, HSet db ("user:" +:+ username) ["defuse"; Itoa 0])
      else (playerLost, updateUserStats db username false)
    else if decide (drawnCard = "Defuse") then
      (defuseAcquired, HSet db ("user:" +:+ username) ["defuse"; Itoa 1])
    else if decide (drawnCard = "Shuffle") then
      (deckReshuffled, resetGame db username rs)
    else
      (reply "You drew a Cat card! One Cat card has been removed from your deck."
             (if decide (drawnCard = "Cat") then "ðŸ˜¼" else ""), db).
Proof.
  destruct (decide (drawnCard = "Exploding Kitten")) as [->|HnK]; [reflexivity|].
  destruct (decide (drawnCard = "Defuse")) as [->|HnD]; [reflexivity|].
  destruct (decide (drawnCard = "Shuffle")) as [->|HnS]; [reflexivity|].
  destruct (decide (drawnCard = "Cat")) as [->|HnC]; [reflexivity|].
  unfold handleDrawnCard. cbn [List.find cards Type_].
  by rewrite !bool_decide_eq_false_2 by congruence.
Qed.

Lemma drawCard_empty db username (r : nat) rs :
  deckOf db username = [] →
  drawCard db username r rs = (deckExhausted, updateUserStats db username true).
Proof.
  unfold deckOf, drawCard. intros ->. by rewrite decide_True.
Qed.

Lemma drawCard_nonempty db username (r : nat) rs :
  deckOf db username ≠ [] →
  drawCard db username r rs =
    handleDrawnCard (LRem db ("deck:" +:+ username) 1 (selectedCard db username r))
                    (selectedCard db username r) username rs.
Proof.
  unfold deckOf, drawCard, selectedCard, deckOf. intros Hne.
  rewrite decide_False; [done|]. by intros ?%nil_length_inv.
Qed.

(** The selected card is one of the deck. *)
Lemma selectedCard_lookup db username (r : nat) :
  deckOf db username ≠ [] →
  deckOf db username !! rand.Intn r (length (deckOf db username))
  = Some (selectedCard db username r).
Proof.
  intros Hne. unfold selectedCard.
  destruct (lookup_lt_is_Some_2 (deckOf db username)
              (rand.Intn r (length (deckOf db username)))) as [c Hc].
  - unfold rand.Intn. apply Nat.mod_upper_bound.
    destruct (deckOf db username); [done|]. cbn. lia.
  - by rewrite Hc.
Qed.

(** [LREM key 1 v] takes out the occurrence of [v] nearest to the head. *)
Lemma removeFromHead_first (v : string) (l : list string) :
  v ∈ l →
  ∃ l1 l2, l = l1 ++ v :: l2 ∧ (v ∉ l1) ∧ removeFromHead 1 v l = l1 ++ l2.
Proof.
  induction l as [|x l IH]; [by intros ?%elem_of_nil|].
  intros Hin. cbn [removeFromHead]. case_decide as Hx.
  - subst x. exists [], l. split_and!; [done|apply not_elem_of_nil|by destruct l].
  - apply elem_of_cons in Hin as [->|Hin]; [done|].
    destruct (IH Hin) as (l1 & l2 & -> & Hl1 & Hrem).
    exists (x :: l1), l2. split_and!; [done| |by rewrite Hrem].
    rewrite not_elem_of_cons. auto.
Qed.

End draw_facts.

(** ** Scoring *)

Section scoring.

Import redis strconv.

Implicit Types (db : Client) (username : string) (rs : nat → nat).

Lemma counter_range db namespace username :
  MinInt ≤ counter db namespace username ≤ MaxInt.
Proof.
  unfold counter. destruct (HGet _ _ _) as [str|]; [|done].
  pose proof (Atoi_range str) as Hrange.
  destruct (Atoi str) as [n [err|]]; [done|exact Hrange].
Qed.

Lemma counter_succ db namespace username :
  counter db namespace username < MaxInt →
  wrap (counter db namespace username + 1) = counter db namespace username + 1.
Proof.
  intros Hlt. pose proof (counter_range db namespace username).
  apply wrap_small. lia.
Qed.

(** C1, as amended: a draw from an empty deck answers "No cards left in the
    deck" (the exhausted-deck outcome) and is scored as a win: the
    username's wins counter, when below the largest [int], goes up by
    exactly 1 and its losses counter stays as it was. *)
Theorem C1_exhausted_draw_scores_a_win db username (r : nat) rs :
  deckOf db username = [] →
  wins db username < MaxInt →
  (drawCard db username r rs).1 = deckExhausted ∧
  wins (drawCard db username r rs).2 username = wins db username + 1 ∧
  losses (drawCard db username r rs).2 username = losses db username.
Proof.
  intros Hempty Hlt. rewrite drawCard_empty by done. cbn [fst snd].
  unfold wins, losses in *. rewrite !counter_updateUserStats.
  rewrite decide_True by done. rewrite decide_False by (intros [? _]; done).
  by rewrite counter_succ.
Qed.

Lemma C1_exhausted_draw_scores_a_win_witness :
  (deckOf drained "bob" = [] ∧ wins drained "bob" < MaxInt) ∧
  (drawCard drained "bob" 0 zeros).1 = deckExhausted ∧
  wins (drawCard drained "bob" 0 zeros).2 "bob" = wins drained "bob" + 1 ∧
  losses (drawCard drained "bob" 0 zeros).2 "bob" = losses drained "bob".
Proof.
  split; [split; by vm_compute|].
  apply (C1_exhausted_draw_scores_a_win drained "bob" 0%nat zeros); by vm_compute.
Defined.

(** C1 as stated fails: bob's deck is empty, the draw is answered with the
    exhausted-deck reply, and his losses counter is not raised; his wins
    counter is. *)
Lemma C1_exhausted_draw_is_not_a_loss :
  deckOf drained "bob" = [] ∧
  (drawCard drained "bob" 0 zeros).1 = deckExhausted ∧
  losses drained "bob" = 0 ∧
  losses (drawCard drained "bob" 0 zeros).2 "bob" = 0 ∧
  losses (drawCard drained "bob" 0 zeros).2 "bob" ≠ losses drained "bob" + 1 ∧
  wins drained "bob" = 0 ∧
  wins (drawCard drained "bob" 0 zeros).2 "bob" = 1.
Proof. by_evaluation. Qed.

(** The losing draw in general: the "You lose!" reply, one more loss, the
    same wins, and the deck without the drawn kitten. *)
Lemma drawCard_lost db username (r : nat) rs :
  selectedCard db username r = "Exploding Kitten" →
  deckOf db username ≠ [] →
  defuseCharges db username ≤ 0 →
  losses db username < MaxInt →
  (drawCard db username r rs).1 = playerLost ∧
  losses (drawCard db username r rs).2 username = losses db username + 1 ∧
  wins (drawCard db username r rs).2 username = wins db username ∧
  deckOf (drawCard db username r rs).2 username
  = removeFromHead 1 "Exploding Kitten" (deckOf db username).
Proof.
  intros Hcard Hne Hcharges Hlt.
  rewrite drawCard_nonempty, Hcard, handleDrawnCard_cases by done.
  rewrite decide_True by done.
  change (defuseCharges (LRem db ("deck:" +:+ username) 1 "Exploding Kitten") username)
    with (defuseCharges db username).
  rewrite bool_decide_eq_false_2 by lia. cbn [fst snd].
  unfold wins, losses in *. rewrite !counter_updateUserStats.
  rewrite decide_True by done. rewrite decide_False by (intros [? _]; done).
  rewrite deckOf_updateUserStats, deckOf_LRem.
  split_and!; try done.
  change (counter (LRem db ("deck:" +:+ username) 1 "Exploding Kitten") "lose" username)
    with (counter db "lose" username).
  by rewrite counter_succ.
Qed.

(** C2 at a failing input: bob starts a game on an empty store and draws
    the card at position 3, the Exploding Kitten, with no defuse charge. He
    gets the "You lose!" reply, his losses go from 0 to 1 and his wins stay 0,
    but his deck is the four cards left, not a new deck of five. The
    earlier variant does put the five cards back at this point. *)
Theorem C2_losing_draw_leaves_the_deck :
  deckOf started "bob" = ["Cat"; "Defuse"; "Shuffle"; "Exploding Kitten"; "Cat"] ∧
  selectedCard started "bob" 3 = "Exploding Kitten" ∧
  defuseCharges started "bob" = 0 ∧
  (drawCard started "bob" 3 zeros).1 = playerLost ∧
  losses started "bob" = 0 ∧
  losses (drawCard started "bob" 3 zeros).2 "bob" = 1 ∧
  wins (drawCard started "bob" 3 zeros).2 "bob" = wins started "bob" ∧
  deckOf (drawCard started "bob" 3 zeros).2 "bob" = ["Cat"; "Defuse"; "Shuffle"; "Cat"] ∧
  deckOf (main2.drawCard started "bob" 3).2 "bob" = newDeckCards.
Proof. by_evaluation. Qed.

End scoring.

(** ** The defuse flag *)

Section defuse.

Import redis strconv.

Implicit Types (db : Client) (username : string) (rs : nat → nat).

(** The defuse count after a draw, by the card selected. *)
Lemma defuseCharges_drawCard db username (r : nat) rs :
  defuseCharges (drawCard db username r rs).2 username =
    if decide (selectedCard db username r = "Exploding Kitten") then
      if bool_decide (0 < defuseCharges db username) then 0
      else defuseCharges db username
    else if decide (selectedCard db username r = "Defuse") then 1
    else if decide (selectedCard db username r = "Shuffle") then 0
    else defuseCharges db username.
Proof.
  destruct (decide (deckOf db username = [])) as [Hempty|Hne].
  - rewrite drawCard_empty by done. cbn [snd].
    rewrite defuseCharges_updateUserStats.
    unfold selectedCard. rewrite Hempty. cbn.
    by repeat (rewrite decide_False by done).
  - rewrite drawCard_nonempty, handleDrawnCard_cases by done.
    set (card := selectedCard db username r).
    change (defuseCharges (LRem db ("deck:" +:+ username) 1 card) username)
      with (defuseCharges db username).
    repeat case_decide; try case_bool_decide; cbn [snd];
      rewrite ?defuseCharges_updateUserStats, ?defuseCharges_resetGame,
        ?(defuseCharges_HSet _ _ 0), ?(defuseCharges_HSet _ _ 1), ?decide_True
        by done; done.
Qed.

(** C3, as amended: the defuse count is a flag. Drawing a Defuse card sets
    it to exactly 1 whatever it was (it does not accumulate); surviving an
    Exploding Kitten, which needs a count above 0, sets it to 0 whatever it
    was; drawing a Shuffle card sets it to 0 as well; every other draw leaves
    it as it was. *)
Theorem C3_defuse_count_is_a_flag db username (r : nat) rs :
  let card := selectedCard db username r in
  let after := (drawCard db username r rs).2 in
  (card = "Defuse" →
     (drawCard db username r rs).1 = defuseAcquired ∧ defuseCharges after username = 1) ∧
  (card = "Exploding Kitten" → 0 < defuseCharges db username →
     (drawCard db username r rs).1 = defused ∧ defuseCharges after username = 0) ∧
  (card = "Shuffle" → defuseCharges after username = 0) ∧
  (card ≠ "Defuse" → card ≠ "Shuffle" →
   ¬ (card = "Exploding Kitten" ∧ 0 < defuseCharges db username) →
     defuseCharges after username = defuseCharges db username).
Proof.
  intros card after. subst after.
  assert (Hdeck : card ≠ "" → deckOf db username ≠ []).
  { intros Hcard Hempty. apply Hcard. unfold card, selectedCard. by rewrite Hempty. }
  rewrite defuseCharges_drawCard. fold card. split_and!.
  - intros Hcard. rewrite drawCard_nonempty, handleDrawnCard_cases
      by (apply Hdeck; by rewrite Hcard).
    fold card. rewrite Hcard. by repeat case_decide.
  - intros Hcard Hpos. rewrite drawCard_nonempty, handleDrawnCard_cases
      by (apply Hdeck; by rewrite Hcard).
    fold card. rewrite Hcard.
    change (defuseCharges (LRem db ("deck:" +:+ username) 1 "Exploding Kitten") username)
      with (defuseCharges db username).
    rewrite !decide_True, !bool_decide_eq_true_2 by done. done.
  - intros Hcard. rewrite Hcard. by repeat case_decide.
  - intros HnD HnS HnK. repeat case_decide; try case_bool_decide; try done.
    exfalso. by apply HnK.
Qed.

(** C3 as stated fails. With one charge held, drawing the Defuse card
    (position 1) leaves the count at 1, not 2; with two charges held,
    surviving the Exploding Kitten (position 3) leaves 0, not 1; and in play
    from an empty store (start, draw the Defuse card, draw the Shuffle card)
    the count goes from 1 to 0 without any Exploding Kitten being drawn. *)
Lemma C3_charges_do_not_accumulate :
  (selectedCard (charged 1) "bob" 1 = "Defuse" ∧
   defuseCharges (charged 1) "bob" = 1 ∧
   defuseCharges (drawCard (charged 1) "bob" 1 zeros).2 "bob" = 1) ∧
  (selectedCard (charged 2) "bob" 3 = "Exploding Kitten" ∧
   defuseCharges (charged 2) "bob" = 2 ∧
   (drawCard (charged 2) "bob" 3 zeros).1 = defused ∧
   defuseCharges (drawCard (charged 2) "bob" 3 zeros).2 "bob" = 0) ∧
  (let afterDefuse := (drawCard started "bob" 1 zeros).2 in
   selectedCard started "bob" 1 = "Defuse" ∧
   defuseCharges afterDefuse "bob" = 1 ∧
   selectedCard afterDefuse "bob" 1 = "Shuffle" ∧
   (drawCard afterDefuse "bob" 1 zeros).1 = deckReshuffled ∧
   defuseCharges (drawCard afterDefuse "bob" 1 zeros).2 "bob" = 0).
Proof. by_evaluation. Qed.

End defuse.

(** ** The deck: reset, session start and removal *)

Section deck.

Import redis strconv.

Implicit Types (db : Client) (username : string) (rs : nat → nat).

(** Every order of the five cards comes out of the shuffle for some outputs
    of the generator. *)
Lemma Shuffle_reaches_every_order (l : list string) :
  l ≡ₚ newDeckCards →
  ∃ js, js ∈ choiceVectors ∧
        rand.Shuffle (outputs js) (length newDeckCards) swapAt newDeckCards = l.
Proof.
  intros Hperm. symmetry in Hperm. apply permutations_Permutation in Hperm.
  assert (Hall : Forall (λ l, Exists (λ js,
            rand.Shuffle (outputs js) (length newDeckCards) swapAt newDeckCards = l)
            choiceVectors) (permutations newDeckCards)).
  { apply (bool_decide_unpack _). by vm_compute. }
  rewrite Forall_forall in Hall. apply Hall, Exists_exists in Hperm. exact Hperm.
Qed.

(** The 120 = 5! vectors of outputs put five distinguishable cards in 120
    different orders: no order is favoured by the loop itself. *)
Lemma Shuffle_choices_distinct :
  length choiceVectors = 120%nat ∧
  NoDup (map (λ js, rand.Shuffle (outputs js) 5 swapAt ["a"; "b"; "c"; "d"; "e"])
             choiceVectors).
Proof. split; [reflexivity|]. apply (bool_decide_unpack _). by vm_compute. Qed.

Lemma drawCard_Shuffle db username (r : nat) rs :
  selectedCard db username r = "Shuffle" →
  drawCard db username r rs =
    (deckReshuffled, resetGame (LRem db ("deck:" +:+ username) 1 "Shuffle") username rs).
Proof.
  intros Hcard. rewrite drawCard_nonempty, Hcard, handleDrawnCard_cases.
  - by repeat case_decide.
  - intros Hempty. unfold selectedCard in Hcard. by rewrite Hempty in Hcard.
Qed.

(** What [resetGame] does: it replaces the user's deck, whatever it was,
    with the shuffle of the five cards Cat, Cat, Defuse, Shuffle, Exploding
    Kitten: a permutation of them, and any permutation for suitable outputs
    of the generator; the stored lists are those of deleting the deck and
    creating it anew with [initializeDeck]; the defuse count is 0 afterwards.
    Drawing a Shuffle card runs exactly this reset. *)
Lemma resetGame_replaces_the_deck db username rs :
  let after := resetGame db username rs in
  deckOf after username = rand.Shuffle rs (length newDeckCards) swapAt newDeckCards ∧
  deckOf after username ≡ₚ newDeckCards ∧
  (∀ l, l ≡ₚ newDeckCards → ∃ rs', deckOf (resetGame db username rs') username = l) ∧
  lists after = lists (initializeDeck (Del db ("deck:" +:+ username)) username rs) ∧
  defuseCharges after username = 0 ∧
  (∀ r : nat, selectedCard db username r = "Shuffle" →
     (drawCard db username r rs).1 = deckReshuffled ∧
     deckOf (drawCard db username r rs).2 username ≡ₚ newDeckCards ∧
     defuseCharges (drawCard db username r rs).2 username = 0).
Proof.
  intros after. subst after.
  assert (Hdeck : ∀ db' rs', deckOf (resetGame db' username rs') username
            = rand.Shuffle rs' (length newDeckCards) swapAt newDeckCards).
  { intros. rewrite deckOf_resetGame. by rewrite decide_True. }
  assert (Hcharges : ∀ db', defuseCharges (resetGame db' username rs) username = 0).
  { intros. rewrite defuseCharges_resetGame. by rewrite decide_True. }
  split_and!.
  - apply Hdeck.
  - rewrite Hdeck. apply Shuffle_Permutation.
  - intros l Hperm. destruct (Shuffle_reaches_every_order l Hperm) as (js & _ & Hjs).
    exists (outputs js). by rewrite Hdeck.
  - unfold resetGame, initializeDeck. by rewrite lists_HSet, take_shuffled.
  - apply Hcharges.
  - intros r Hcard. rewrite drawCard_Shuffle by done. cbn [fst snd].
    rewrite Hdeck, Hcharges. split_and!; [done|apply Shuffle_Permutation|done].
Qed.

(** The earlier variant's reset stores the five cards in the order of the
    literal and leaves the defuse flag alone. *)
Lemma main2_resetGame_unshuffled db username :
  deckOf (main2.resetGame db username) username = newDeckCards ∧
  defuseCharges (main2.resetGame db username) username = defuseCharges db username.
Proof.
  unfold main2.resetGame, deckOf. rewrite LRange_RPush, LRange_Del.
  rewrite !decide_True by done. split; [done|].
  unfold defuseCharges. rewrite HGet_RPush, HGet_Del; [done|key_clash].
Qed.

(** C4 at a failing input: bob starts a game on an empty store and loses
    (position 3 is the Exploding Kitten, no defuse charge). The losing branch
    does not run the deck reset: the store it leaves is the one with the
    kitten taken out and the loss recorded, bob's deck has the four remaining
    cards, which are no arrangement of the five. Running [resetGame] there
    would store five cards, as the Shuffle draw (position 2) does on the same
    store, with the defuse count at 0, and as the losing draw of the earlier
    variant does. *)
Theorem C4_losing_draw_runs_no_reset :
  let lost := (drawCard started "bob" 3 zeros).2 in
  let reshuffled := (drawCard started "bob" 2 zeros).2 in
  selectedCard started "bob" 3 = "Exploding Kitten" ∧
  (drawCard started "bob" 3 zeros).1 = playerLost ∧
  lost = updateUserStats (LRem started "deck:bob" 1 "Exploding Kitten") "bob" false ∧
  deckOf lost "bob" = ["Cat"; "Defuse"; "Shuffle"; "Cat"] ∧
  ¬ (deckOf lost "bob" ≡ₚ newDeckCards) ∧
  deckOf (resetGame lost "bob" zeros) "bob"
    = ["Cat"; "Defuse"; "Shuffle"; "Exploding Kitten"; "Cat"] ∧
  selectedCard started "bob" 2 = "Shuffle" ∧
  (drawCard started "bob" 2 zeros).1 = deckReshuffled ∧
  deckOf reshuffled "bob" = ["Cat"; "Defuse"; "Shuffle"; "Exploding Kitten"; "Cat"] ∧
  defuseCharges reshuffled "bob" = 0 ∧
  deckOf (main2.drawCard started "bob" 3).2 "bob" = newDeckCards.
Proof.
  intros lost reshuffled. subst lost reshuffled.
  split_and!; try (vm_compute; reflexivity).
  intros Hperm%Permutation_length. vm_compute in Hperm. discriminate.
Qed.



(** The earlier variant resumes in the same way. *)
Lemma main2_startGame_twice db username rs rs' :
  deckOf db username = [] →
  let deck := rand.Shuffle rs (length newDeckCards) swapAt newDeckCards in
  let db1 := (main2.startGame db username rs).2 in
  (main2.startGame db username rs).1 = gameStarted username deck ∧
  main2.startGame db1 username rs' = (gameResumed username deck, db1).
Proof.
  intros Hempty deck db1.
  assert (Hstart : main2.startGame db username rs
            = (gameStarted username deck, initializeDeck db username rs)).
  { unfold main2.startGame. fold (deckOf db username). rewrite Hempty.
    rewrite bool_decide_eq_false_2 by (cbn; lia).
    unfold initializeDeck. rewrite LRange_RPush, decide_True by done.
    fold (deckOf db username). by rewrite Hempty. }
  split; [by rewrite Hstart|].
  assert (Hdeck : deckOf db1 username = deck).
  { subst db1. rewrite Hstart. cbn [snd].
    unfold deckOf, initializeDeck. rewrite LRange_RPush, decide_True by done.
    fold (deckOf db username). by rewrite Hempty. }
  unfold main2.startGame. fold (deckOf db1 username). rewrite Hdeck.
  rewrite bool_decide_eq_true_2; [done|].
  unfold deck. rewrite Shuffle_length. cbn. lia.
Qed.

End deck.

(** ** The life of the counters *)

Section counters.

Import redis strconv.

Implicit Types (db : Client) (username : string) (rs : nat → nat).

Lemma startGame_resume db username rs :
  deckOf db username ≠ [] →
  startGame db username rs = (gameResumed username (deckOf db username), db).
Proof.
  intros Hne. unfold startGame. fold (deckOf db username).
  rewrite bool_decide_eq_true_2; [done|].
  destruct (deckOf db username); [done|cbn; lia].
Qed.

Lemma startGame_create db username rs :
  deckOf db username = [] →
  (startGame db username rs).2
  = HSet (HSet (initializeDeck db username rs) "win" [username; Itoa 0])
         "lose" [username; Itoa 0].
Proof.
  intros Hempty. unfold startGame. fold (deckOf db username). rewrite Hempty.
  by rewrite bool_decide_eq_false_2 by (cbn; lia).
Qed.

(** A counter after [startGame]: zero for the user when a deck is created,
    whatever it was; untouched otherwise. *)
Lemma counter_startGame db username rs namespace username' :
  namespace = "win" ∨ namespace = "lose" →
  counter (startGame db username rs).2 namespace username' =
    if decide (deckOf db username = [] ∧ username = username') then 0
    else counter db namespace username'.
Proof.
  intros Hns. destruct (decide (deckOf db username = [])) as [Hempty|Hne].
  - rewrite startGame_create by done. rewrite !counter_HSet by done.
    change (counter (initializeDeck db username rs) namespace username')
      with (counter db namespace username').
    destruct Hns as [-> | ->]; repeat case_decide; destruct_and?; try done; tauto.
  - rewrite startGame_resume by done. cbn [snd].
    rewrite decide_False by tauto. done.
Qed.

(** A counter after [drawCard]: one more win for the user when the deck was
    empty, one more loss when the Exploding Kitten met no defuse charge. *)
Lemma counter_drawCard db username (r : nat) rs namespace username' :
  namespace = "win" ∨ namespace = "lose" →
  counter (drawCard db username r rs).2 namespace username' =
    if decide (deckOf db username = []) then
      if decide (namespace = "win" ∧ username = username')
      then wrap (counter db namespace username' + 1)
      else counter db namespace username'
    else if decide (selectedCard db username r = "Exploding Kitten"
                    ∧ defuseCharges db username ≤ 0) then
      if decide (namespace = "lose" ∧ username = username')
      then wrap (counter db namespace username' + 1)
      else counter db namespace username'
    else counter db namespace username'.
Proof.
  intros Hns. destruct (decide (deckOf db username = [])) as [Hempty|Hne].
  - rewrite drawCard_empty by done. cbn [snd]. rewrite counter_updateUserStats.
    repeat case_decide; destruct_and?; subst; try done; tauto.
  - rewrite drawCard_nonempty, handleDrawnCard_cases by done.
    set (card := selectedCard db username r).
    change (defuseCharges (LRem db ("deck:" +:+ username) 1 card) username)
      with (defuseCharges db username).
    assert (Hrem : counter (LRem db ("deck:" +:+ username) 1 card) namespace username'
              = counter db namespace username') by reflexivity.
    destruct (decide (card = "Exploding Kitten")) as [Hk|Hk].
    + case_bool_decide as Hpos; cbn [snd].
      * rewrite counter_HSet_user, Hrem by done.
        rewrite decide_False by lia. done.
      * rewrite counter_updateUserStats, Hrem.
        rewrite (decide_True (P := card = _ ∧ _)) by (split; [done|lia]).
        repeat case_decide; destruct_and?; subst; try done; tauto.
    + rewrite (decide_False (P := card = _ ∧ _)) by tauto.
      repeat case_decide; cbn [snd];
        rewrite ?counter_HSet_user, ?counter_resetGame, ?Hrem by done; done.
Qed.

(** No counter entry is ever removed. *)
Lemma counter_entry_kept_by_HSet db key field value namespace username :
  is_Some (HGet db namespace username) →
  is_Some (HGet (HSet db key [field; value]) namespace username).
Proof. intros Hsome. rewrite HGet_HSet. by case_decide. Qed.

Lemma counter_entry_kept_by_resetGame db username rs namespace username' :
  namespace = "win" ∨ namespace = "lose" →
  is_Some (HGet db namespace username') →
  is_Some (HGet (resetGame db username rs) namespace username').
Proof.
  intros Hns Hsome. unfold resetGame. apply counter_entry_kept_by_HSet.
  rewrite HGet_RPush, HGet_Del; [done|]. destruct Hns as [-> | ->]; key_clash.
Qed.

Lemma counter_entry_kept db username (r : nat) rs namespace username' :
  namespace = "win" ∨ namespace = "lose" →
  is_Some (HGet db namespace username') →
  is_Some (HGet (startGame db username rs).2 namespace username') ∧
  is_Some (HGet (drawCard db username r rs).2 namespace username').
Proof.
  intros Hns Hsome. split.
  - destruct (decide (deckOf db username = [])) as [Hempty|Hne].
    + rewrite startGame_create by done.
      by do 2 apply counter_entry_kept_by_HSet.
    + by rewrite startGame_resume.
  - destruct (decide (deckOf db username = [])) as [Hempty|Hne].
    + rewrite drawCard_empty by done. cbn [snd]. rewrite updateUserStats_win.
      by apply counter_entry_kept_by_HSet.
    + rewrite drawCard_nonempty, handleDrawnCard_cases by done.
      repeat case_decide; try case_bool_decide; cbn [snd];
        rewrite ?updateUserStats_lose;
        try apply counter_entry_kept_by_resetGame;
        try apply counter_entry_kept_by_HSet; done.
Qed.

(** C5, as amended: [startGame] sets the user's wins and losses to zero
    whenever it creates a deck (no deck is stored for the user), whether the
    counters existed or not, and leaves them alone when it resumes a stored
    deck. A draw adds exactly 1 to wins when the deck was empty, exactly 1
    to losses when the Exploding Kitten met no defuse charge, and nothing
    otherwise (for counters below the largest [int]). Neither operation
    removes a counter entry. *)
Theorem C5_counter_lifecycle db username (r : nat) rs :
  wins db username < MaxInt →
  losses db username < MaxInt →
  wins (startGame db username rs).2 username
    = (if decide (deckOf db username = []) then 0 else wins db username) ∧
  losses (startGame db username rs).2 username
    = (if decide (deckOf db username = []) then 0 else losses db username) ∧
  wins (drawCard db username r rs).2 username
    = wins db username + (if decide (deckOf db username = []) then 1 else 0) ∧
  losses (drawCard db username r rs).2 username
    = losses db username
      + (if decide (selectedCard db username r = "Exploding Kitten"
                    ∧ defuseCharges db username ≤ 0) then 1 else 0) ∧
  (∀ namespace, namespace = "win" ∨ namespace = "lose" →
     is_Some (HGet db namespace username) →
     is_Some (HGet (startGame db username rs).2 namespace username) ∧
     is_Some (HGet (drawCard db username r rs).2 namespace username)).
Proof.
  intros Hwins Hlosses. unfold wins, losses in *.
  rewrite !counter_startGame, !counter_drawCard by auto.
  split_and!.
  - repeat case_decide; destruct_and?; try done; tauto.
  - repeat case_decide; destruct_and?; try done; tauto.
  - pose proof (counter_succ db "win" username Hwins).
    repeat case_decide; destruct_and?; try done; try lia; tauto.
  - pose proof (counter_succ db "lose" username Hlosses).
    destruct (decide (deckOf db username = [])) as [Hempty|Hne].
    + rewrite decide_False by (by intros [? _]).
      rewrite decide_False; [lia|].
      intros [Hcard _]. unfold selectedCard in Hcard. by rewrite Hempty in Hcard.
    + repeat case_decide; destruct_and?; try done; try lia; tauto.
  - intros namespace Hns Hsome. by apply counter_entry_kept.
Qed.

Lemma C5_counter_lifecycle_witness :
  (wins started "bob" < MaxInt ∧ losses started "bob" < MaxInt) ∧
  wins (drawCard started "bob" 3 zeros).2 "bob" = wins started "bob" + 0 ∧
  losses (drawCard started "bob" 3 zeros).2 "bob" = losses started "bob" + 1.
Proof.
  split; [split; by vm_compute|].
  destruct (C5_counter_lifecycle started "bob" 3%nat zeros) as (_ & _ & Hw & Hl & _);
    [by vm_compute..|].
  split; [exact Hw|exact Hl].
Defined.

(** C5 as stated fails: alice draws before she has a deck, which records her
    first win; the [startGame] that follows finds no deck, creates one and
    puts her wins back to 0. *)
Lemma C5_startGame_zeroes_existing_counters :
  redis.HGet drewFirst "win" "alice" = Some "1" ∧
  wins drewFirst "alice" = 1 ∧
  (startGame drewFirst "alice" zeros).1
    = gameStarted "alice" ["Cat"; "Defuse"; "Shuffle"; "Exploding Kitten"; "Cat"] ∧
  redis.HGet (startGame drewFirst "alice" zeros).2 "win" "alice" = Some "0" ∧
  wins (startGame drewFirst "alice" zeros).2 "alice" = 0.
Proof. by_evaluation. Qed.

End counters.

(** ** Which card leaves the deck *)

Section removal.

Import redis strconv.

Implicit Types (db : Client) (username : string) (rs : nat → nat).

(** Only the Shuffle card makes [handleDrawnCard] touch a deck. *)
Lemma deckOf_handleDrawnCard db (drawnCard : string) username rs username' :
  drawnCard ≠ "Shuffle" →
  deckOf (handleDrawnCard db drawnCard username rs).2 username' = deckOf db username'.
Proof.
  intros Hcard. rewrite handleDrawnCard_cases.
  repeat case_decide; try case_bool_decide; cbn [snd];
    rewrite ?deckOf_HSet, ?deckOf_updateUserStats; done.
Qed.

(** C10: a draw from a non-empty deck hands the selected card to
    [handleDrawnCard] after taking exactly one card out of the stored list:
    the occurrence of the selected kind nearest to the head. The cards
    before it and after it stay in their order, the list is one shorter,
    and unless the card is the Shuffle card (which replaces the deck) this is
    the deck the draw leaves. Two positions holding the same kind give the
    same result. *)
Theorem C10_draw_removes_first_of_kind db username (r : nat) rs :
  deckOf db username ≠ [] →
  let card := selectedCard db username r in
  let taken := LRem db ("deck:" +:+ username) 1 card in
  drawCard db username r rs = handleDrawnCard taken card username rs ∧
  (∃ l1 l2,
     deckOf db username = l1 ++ card :: l2 ∧
     (card ∉ l1) ∧
     deckOf taken username = l1 ++ l2 ∧
     (card ≠ "Shuffle" → deckOf (drawCard db username r rs).2 username = l1 ++ l2)) ∧
  S (length (deckOf taken username)) = length (deckOf db username) ∧
  (∀ r' : nat, selectedCard db username r' = card →
     drawCard db username r' rs = drawCard db username r rs).
Proof.
  intros Hne card taken.
  assert (Hin : card ∈ deckOf db username).
  { eapply list_elem_of_lookup_2. by apply selectedCard_lookup. }
  destruct (removeFromHead_first card (deckOf db username) Hin)
    as (l1 & l2 & Hdeck & Hl1 & Hrem).
  assert (Htaken : deckOf taken username = l1 ++ l2).
  { unfold taken. by rewrite deckOf_LRem. }
  split_and!.
  - by apply drawCard_nonempty.
  - exists l1, l2. split_and!; [done..|].
    intros Hcard. rewrite drawCard_nonempty by done.
    fold card taken. by rewrite deckOf_handleDrawnCard.
  - rewrite Htaken, Hdeck, !length_app. cbn [length]. lia.
  - intros r' Hr'. rewrite !drawCard_nonempty by done. by rewrite Hr'.
Qed.

Lemma C10_draw_removes_first_of_kind_witness :
  deckOf started "bob" ≠ [] ∧
  selectedCard started "bob" 4 = "Cat" ∧
  deckOf started "bob" = [] ++ "Cat" :: ["Defuse"; "Shuffle"; "Exploding Kitten"; "Cat"] ∧
  deckOf (drawCard started "bob" 4 zeros).2 "bob"
    = ["Defuse"; "Shuffle"; "Exploding Kitten"; "Cat"] ∧
  drawCard started "bob" 0 zeros = drawCard started "bob" 4 zeros.
Proof.
  assert (Hne : deckOf started "bob" ≠ []) by (by vm_compute).
  split; [exact Hne|].
  destruct (C10_draw_removes_first_of_kind started "bob" 4%nat zeros Hne)
    as (_ & _ & _ & Hsame).
  split_and!; [by vm_compute..|].
  apply Hsame. by vm_compute.
Defined.

End removal.

(** ** The leaderboard snapshot *)

Section snapshot.

Import redis.

Implicit Types (db : Client) (order : list (string * string)).

(** The row [fetchAllUserStats] builds for one entry of the wins namespace. *)
Lemma fetchAllUserStats_rows db order :
  fetchAllUserStats db order
  = (λ entry, statsRow entry.1 entry.2 (default "0" (HGet db "lose" entry.1))) <$> order.
Proof.
  unfold fetchAllUserStats.
  enough (Hgen : ∀ acc,
    foldl (λ userStats '(username, wins),
             userStats ++ [statsRow username wins
                             (default "0" (HGetAll db "lose" !! username))]) acc order
    = acc ++ ((λ entry, statsRow entry.1 entry.2 (default "0" (HGet db "lose" entry.1)))
                <$> order)) by apply (Hgen []).
  induction order as [|[username wins] order IH]; intros acc.
  - by rewrite app_nil_r.
  - cbn [foldl fmap list_fmap]. rewrite IH. by rewrite <- app_assoc.
Qed.

Lemma statsRow_username (username wins loses : string) :
  statsRow username wins loses !! "username" = Some username.
Proof. unfold statsRow. by simplify_map_eq. Qed.

(** The rows of the snapshot are the entries of the wins namespace. *)
Lemma fetchAllUserStats_elem db order (row : gmap string string) :
  rangeOver (HGetAll db "win") order →
  row ∈ fetchAllUserStats db order ↔
    ∃ username wins, HGet db "win" username = Some wins ∧
      row = statsRow username wins (default "0" (HGet db "lose" username)).
Proof.
  unfold rangeOver. intros Horder.
  rewrite fetchAllUserStats_rows, list_elem_of_fmap. split.
  - intros ([username wins] & -> & Hin). exists username, wins. split; [|done].
    rewrite Horder in Hin. by apply elem_of_map_to_list in Hin.
  - intros (username & wins & Hwin & ->). exists (username, wins). split; [done|].
    rewrite Horder. by apply elem_of_map_to_list.
Qed.

(** C8, as amended: the snapshot holds one row for every username of the
    wins namespace and no other row. The row carries the stored wins text and
    the stored losses text, or "0" when the username is missing from the
    losses namespace. A username that is in the losses namespace only has
    no row. *)
Theorem C8_snapshot_follows_the_wins_namespace db order :
  rangeOver (HGetAll db "win") order →
  (∀ row, row ∈ fetchAllUserStats db order ↔
     ∃ username wins, HGet db "win" username = Some wins ∧
       row = statsRow username wins (default "0" (HGet db "lose" username))) ∧
  length (fetchAllUserStats db order) = size (HGetAll db "win") ∧
  NoDup ((λ row : gmap string string, row !! "username") <$> fetchAllUserStats db order) ∧
  (∀ username, HGet db "win" username = None →
     ∀ row, row ∈ fetchAllUserStats db order → row !! "username" ≠ Some username).
Proof.
  intros Horder.
  assert (Hrows := λ row, fetchAllUserStats_elem db order row Horder).
  unfold rangeOver in Horder. split_and!.
  - exact Hrows.
  - rewrite fetchAllUserStats_rows, length_fmap, Horder. apply length_map_to_list.
  - rewrite fetchAllUserStats_rows.
    assert (Hnames : ∀ entries : list (string * string),
      (λ row : gmap string string, row !! "username")
        <$> ((λ entry, statsRow entry.1 entry.2 (default "0" (HGet db "lose" entry.1)))
               <$> entries)
      = Some <$> entries.*1).
    { induction entries as [|entry entries IH]; [done|].
      cbn [fmap list_fmap]. rewrite statsRow_username. f_equal. exact IH. }
    rewrite Hnames. apply (NoDup_fmap_2 Some).
    rewrite Horder. apply NoDup_fst_map_to_list.
  - intros username Hnone row Hin. apply Hrows in Hin as (username' & wins & Hwin & ->).
    rewrite statsRow_username. intros [= ->]. by rewrite Hnone in Hwin.
Qed.

Lemma C8_snapshot_follows_the_wins_namespace_witness :
  rangeOver (HGetAll started "win") [("bob", "0")] ∧
  fetchAllUserStats started [("bob", "0")] = [statsRow "bob" "0" "0"] ∧
  length (fetchAllUserStats started [("bob", "0")]) = size (HGetAll started "win").
Proof.
  assert (Horder : rangeOver (HGetAll started "win") [("bob", "0")]).
  { unfold rangeOver. by vm_compute. }
  split; [exact Horder|]. split; [vm_compute; reflexivity|].
  by destruct (C8_snapshot_follows_the_wins_namespace started [("bob", "0")] Horder)
    as (_ & Hlen & _).
Defined.

(** C8 as stated fails: bob is in the losses namespace, the wins namespace
    is empty, so [range] yields nothing and the snapshot has no row at all,
    in particular none for bob. *)
Lemma C8_loss_only_user_is_left_out :
  HGet onlyLoss "lose" "bob" = Some "1" ∧
  HGet onlyLoss "win" "bob" = None ∧
  rangeOver (HGetAll onlyLoss "win") [] ∧
  fetchAllUserStats onlyLoss [] = [].
Proof.
  split_and!; [by vm_compute..| |done].
  unfold rangeOver. by vm_compute.
Qed.

End snapshot.

(** ** The broadcast *)

Section broadcast.

Implicit Types (h : Hub) (conn : Conn) (fails : Conn → bool)
  (v : list (gmap string string)).

Lemma broadcastTo_sent fails v h conn :
  fails conn = false → conn ∉ closed h →
  broadcastTo fails v h conn
  = mkHub (clients h) (<[conn := default [] (written h !! conn) ++ [v]]> (written h))
          (closed h).
Proof.
  intros Hok Hopen. unfold broadcastTo, WriteJSON.
  by rewrite Hok, bool_decide_eq_false_2.
Qed.

Lemma broadcastTo_dropped fails v h conn :
  fails conn = true ∨ conn ∈ closed h →
  broadcastTo fails v h conn
  = mkHub (delete conn (clients h)) (written h) ({[conn]} ∪ closed h).
Proof.
  intros Hbad. unfold broadcastTo, WriteJSON.
  destruct Hbad as [-> | Hclosed]; [done|].
  by rewrite bool_decide_eq_true_2, orb_true_r.
Qed.

(** Writing to one client tells nothing to, and changes nothing for, any
    other connection. *)
Lemma broadcastTo_other fails v h conn conn' :
  conn' ≠ conn →
  clients (broadcastTo fails v h conn) !! conn' = clients h !! conn' ∧
  written (broadcastTo fails v h conn) !! conn' = written h !! conn' ∧
  (conn' ∈ closed (broadcastTo fails v h conn) ↔ conn' ∈ closed h).
Proof.
  intros Hne.
  destruct (fails conn) eqn:Hfails; [|destruct (decide (conn ∈ closed h))].
  - rewrite broadcastTo_dropped by auto. cbn. split_and!; [by simplify_map_eq|done|].
    rewrite elem_of_union, elem_of_singleton. tauto.
  - rewrite broadcastTo_dropped by auto. cbn. split_and!; [by simplify_map_eq|done|].
    rewrite elem_of_union, elem_of_singleton. tauto.
  - rewrite broadcastTo_sent by done. cbn. split_and!; [done|by simplify_map_eq|done].
Qed.

(** The loop over the clients, one visit each. *)
Lemma broadcast_loop fails v (connOrder : list Conn) :
  NoDup connOrder →
  ∀ h conn,
    let after := foldl (broadcastTo fails v) h connOrder in
    (conn ∉ connOrder →
       clients after !! conn = clients h !! conn ∧
       written after !! conn = written h !! conn ∧
       (conn ∈ closed after ↔ conn ∈ closed h)) ∧
    (conn ∈ connOrder → fails conn = false → conn ∉ closed h →
       clients after !! conn = clients h !! conn ∧
       written after !! conn = Some (default [] (written h !! conn) ++ [v]) ∧
       conn ∉ closed after) ∧
    (conn ∈ connOrder → fails conn = true ∨ conn ∈ closed h →
       clients after !! conn = None ∧
       written after !! conn = written h !! conn ∧
       conn ∈ closed after).
Proof.
  induction 1 as [|c connOrder Hfresh Hnodup IH]; intros h conn after.
  { split_and!; [done|by intros ?%elem_of_nil..]. }
  subst after. cbn [foldl].
  destruct (IH (broadcastTo fails v h c) conn) as (IHout & IHsent & IHdropped).
  destruct (decide (conn = c)) as [->|Hne].
  - destruct (IHout Hfresh) as (Hclients & Hwritten & Hclosed).
    rewrite Hclients, Hwritten, Hclosed. split_and!.
    + intros Hout. exfalso. apply Hout. by left.
    + intros _ Hok Hopen. rewrite broadcastTo_sent by done. cbn.
      split_and!; [done|by simplify_map_eq|done].
    + intros _ Hbad. rewrite broadcastTo_dropped by done. cbn.
      split_and!; [by simplify_map_eq|done|].
      rewrite elem_of_union, elem_of_singleton. by left.
  - destruct (broadcastTo_other fails v h c conn Hne) as (Hclients & Hwritten & Hclosed).
    rewrite <- Hclients, <- Hwritten, <- Hclosed. split_and!.
    + intros Hout. apply IHout. by intros Hin; apply Hout; right.
    + intros Hin Hok Hopen. apply IHsent; [|done..].
      apply elem_of_cons in Hin as [?|?]; done.
    + intros Hin Hbad. apply IHdropped; [|done].
      apply elem_of_cons in Hin as [?|?]; done.
Qed.

(** C9: [broadcastLeaderboard] visits every registered client once. A
    client whose write succeeds stays registered and open and has the
    snapshot appended to what it was sent; a client whose write fails is
    closed and deleted from [clients] and is sent nothing; a failure changes
    nothing for the other clients, and the function has no error result to
    hand to its caller. Connections that are not registered are left alone. *)
Theorem C9_broadcast_isolates_failures (db : redis.Client)
    (order : list (string * string)) fails (connOrder : list Conn) h :
  connOrder ≡ₚ (map_to_list (clients h)).*1 →
  let leaderboardData := fetchAllUserStats db order in
  let after := broadcastLeaderboard db order fails connOrder h in
  ∀ conn,
    (is_Some (clients h !! conn) → fails conn = false → conn ∉ closed h →
       clients after !! conn = clients h !! conn ∧
       written after !! conn
         = Some (default [] (written h !! conn) ++ [leaderboardData]) ∧
       conn ∉ closed after) ∧
    (is_Some (clients h !! conn) → fails conn = true ∨ conn ∈ closed h →
       clients after !! conn = None ∧
       written after !! conn = written h !! conn ∧
       conn ∈ closed after) ∧
    (clients h !! conn = None →
       clients after !! conn = None ∧
       written after !! conn = written h !! conn ∧
       (conn ∈ closed after ↔ conn ∈ closed h)).
Proof.
  intros Horder leaderboardData after conn.
  assert (Hnodup : NoDup connOrder).
  { rewrite Horder. apply NoDup_fst_map_to_list. }
  assert (Hin : conn ∈ connOrder ↔ is_Some (clients h !! conn)).
  { rewrite Horder, list_elem_of_fmap. split.
    - intros ([conn' flag] & -> & Hentry). apply elem_of_map_to_list in Hentry. by eexists.
    - intros [flag Hflag]. exists (conn, flag). split; [done|].
      by apply elem_of_map_to_list. }
  destruct (broadcast_loop fails leaderboardData connOrder Hnodup h conn)
    as (Hout & Hsent & Hdropped).
  split_and!.
  - intros Hreg. apply Hsent. by apply Hin.
  - intros Hreg. apply Hdropped. by apply Hin.
  - intros Hnone.
    destruct Hout as (Hclients & Hrest).
    + rewrite Hin, Hnone. by intros [? ?].
    + split; [|exact Hrest]. by rewrite <- Hnone.
Qed.

Lemma C9_broadcast_isolates_failures_witness :
  let fails : Conn → bool := λ conn, bool_decide (conn = 2%nat) in
  let connOrder := (map_to_list (clients threeClients)).*1 in
  let after := broadcastLeaderboard started [("bob", "0")] fails connOrder threeClients in
  connOrder ≡ₚ (map_to_list (clients threeClients)).*1 ∧
  written after !! (1%nat : Conn) = Some [[statsRow "bob" "0" "0"]] ∧
  (clients after !! (2%nat : Conn) = None ∧ written after !! (2%nat : Conn) = None ∧
   (2%nat : Conn) ∈ closed after) ∧
  written after !! (3%nat : Conn) = Some [[statsRow "bob" "0" "0"]].
Proof.
  intros fails connOrder after.
  assert (Horder : connOrder ≡ₚ (map_to_list (clients threeClients)).*1) by done.
  split; [exact Horder|].
  pose proof (C9_broadcast_isolates_failures started [("bob", "0")] fails connOrder
                threeClients Horder) as Hall.
  assert (Hopen : ∀ conn : Conn, conn ∉ closed threeClients)
    by (intros conn; apply not_elem_of_empty).
  subst after. split; [|split].
  - destruct (Hall 1%nat) as (Hsent & _).
    destruct Hsent as (_ & Hwritten & _); [by eexists|reflexivity|apply Hopen|].
    rewrite Hwritten. vm_compute. reflexivity.
  - destruct (Hall 2%nat) as (_ & Hdropped & _).
    destruct Hdropped as (Hclients & Hwritten & Hclosed); [by eexists|by left|].
    rewrite Hclients, Hwritten. split; [done|]. split; [vm_compute; reflexivity|exact Hclosed].
  - destruct (Hall 3%nat) as (Hsent & _).
    destruct Hsent as (_ & Hwritten & _); [by eexists|reflexivity|apply Hopen|].
    rewrite Hwritten. vm_compute. reflexivity.
Defined.

(** A draw leaves the hub as it is, whatever it does to the counters. *)
Lemma route_draw_keeps_hub (srv : Server) (username : string) (env : Env) :
  hub (route srv (PostDrawCard username) env).2 = hub srv.
Proof. cbn [route]. by destruct (drawCard _ _ _ _). Qed.

(** C7 at a failing input: observer 7 is registered and has been sent the
    snapshot with bob at 0 wins and 0 losses. bob then draws the Exploding
    Kitten with no defuse charge: he gets the "You lose!" reply and the stored
    losses go from 0 to 1, but the hub is untouched and observer 7 has been
    sent nothing more. A call of [broadcastLeaderboard] at this point would
    deliver the new snapshot. *)
Theorem C7_losing_draw_publishes_nothing :
  let after := (route watched (PostDrawCard "bob") calm).2 in
  clients (hub watched) !! 7%nat = Some true ∧
  written (hub watched) !! 7%nat = Some [[statsRow "bob" "0" "0"]] ∧
  (route watched (PostDrawCard "bob") calm).1 = Some playerLost ∧
  losses (rdb watched) "bob" = 0 ∧
  losses (rdb after) "bob" = 1 ∧
  hub after = hub watched ∧
  written (hub after) !! 7%nat = Some [[statsRow "bob" "0" "0"]] ∧
  written (broadcastLeaderboard (rdb after) [("bob", "0")] (sendFails calm) [7%nat]
             (hub after)) !! 7%nat
  = Some [[statsRow "bob" "0" "0"]; [statsRow "bob" "0" "1"]].
Proof. by_evaluation. Qed.

End broadcast.

(** ** Stores the server itself produces *)

Section reachable_stores.

Import redis strconv.

Implicit Types (db : Client) (username : string) (rs : nat → nat).

(** A draw does not touch the deck of another user. *)
Lemma deckOf_drawCard_other db username (r : nat) rs username' :
  username ≠ username' →
  deckOf (drawCard db username r rs).2 username' = deckOf db username'.
Proof.
  intros Hne. destruct (decide (deckOf db username = [])) as [Hempty|Hfull].
  - rewrite drawCard_empty by done. cbn [snd]. apply deckOf_updateUserStats.
  - rewrite drawCard_nonempty, handleDrawnCard_cases by done.
    repeat case_decide; try case_bool_decide; cbn [snd];
      rewrite ?deckOf_HSet, ?deckOf_updateUserStats, ?deckOf_resetGame,
        ?decide_False by done;
      by apply deckOf_LRem_ne.
Qed.

Lemma deckOf_startGame_other db username rs username' :
  username ≠ username' →
  deckOf (startGame db username rs).2 username' = deckOf db username'.
Proof.
  intros Hne. destruct (decide (deckOf db username = [])) as [Hempty|Hfull].
  - rewrite startGame_create by done. rewrite !deckOf_HSet.
    unfold deckOf, initializeDeck. rewrite LRange_RPush.
    rewrite decide_False; [done|]. by intros ?%deck_key_inj.
  - by rewrite startGame_resume.
Qed.

Lemma paired_startGame db username rs : paired db → paired (startGame db username rs).2.
Proof.
  intros Hpaired username' Hhas.
  destruct (decide (deckOf db username = [])) as [Hempty|Hfull].
  - rewrite startGame_create in * by done.
    rewrite !HGet_HSet in *. rewrite !deckOf_HSet in Hhas.
    rewrite (decide_False (P := "lose" = "win" ∧ _)) by (by intros [? _]).
    destruct (decide (username = username')) as [->|Hne].
    + by rewrite decide_True.
    + rewrite decide_False by (by intros [_ ?]).
      rewrite decide_False in Hhas by (by intros [_ ?]).
      rewrite (decide_False (P := "win" = "lose" ∧ _)) in Hhas by (by intros [? _]).
      apply Hpaired. destruct Hhas as [Hdeck|Hlose]; [left|by right].
      unfold deckOf, initializeDeck in Hdeck. rewrite LRange_RPush in Hdeck.
      rewrite decide_False in Hdeck; [done|]. by intros ?%deck_key_inj.
  - rewrite startGame_resume in * by done. by apply Hpaired.
Qed.

Lemma losses_entry_drawCard db username (r : nat) rs username' :
  is_Some (HGet (drawCard db username r rs).2 "lose" username') →
  is_Some (HGet db "lose" username') ∨ (username = username' ∧ deckOf db username ≠ []).
Proof.
  destruct (decide (deckOf db username = [])) as [Hempty|Hfull].
  - rewrite drawCard_empty by done. cbn [snd].
    rewrite updateUserStats_win, HGet_HSet.
    rewrite decide_False by (by intros [? _]). by left.
  - rewrite drawCard_nonempty, handleDrawnCard_cases by done.
    repeat case_decide; try case_bool_decide; cbn [snd];
      rewrite ?updateUserStats_lose; unfold resetGame;
      rewrite ?HGet_HSet, ?HGet_RPush;
      repeat case_decide; destruct_and?; subst;
      rewrite ?HGet_Del by key_clash; try key_clash; auto.
Qed.

Lemma paired_drawCard db username (r : nat) rs :
  paired db → paired (drawCard db username r rs).2.
Proof.
  intros Hpaired username' Hhas.
  apply (counter_entry_kept db username r rs "win" username'); [by left|].
  apply Hpaired. destruct Hhas as [Hdeck|Hlose].
  - left. destruct (decide (username = username')) as [->|Hne].
    + intros Hempty. apply Hdeck.
      rewrite drawCard_empty by done. cbn [snd]. by rewrite deckOf_updateUserStats.
    + by rewrite deckOf_drawCard_other in Hdeck.
  - apply losses_entry_drawCard in Hlose as [Hlose|[-> Hfull]]; auto.
Qed.

(** On a store the server has produced, the two namespaces go together:
    a username with a losses entry has a wins entry. *)
Lemma reachable_paired db : reachable db → paired db.
Proof.
  induction 1 as [|db username rs _ IH|db username r rs _ IH].
  - intros username [Hdeck|[str Hlose]]; [by destruct Hdeck|by vm_compute in Hlose].
  - by apply paired_startGame.
  - by apply paired_drawCard.
Qed.

(** There, the snapshot has a row for every username of either namespace. *)
Lemma reachable_snapshot_complete db (order : list (string * string)) username :
  reachable db →
  rangeOver (HGetAll db "win") order →
  is_Some (HGet db "win" username) ∨ is_Some (HGet db "lose" username) →
  ∃ wins, statsRow username wins (default "0" (HGet db "lose" username))
            ∈ fetchAllUserStats db order.
Proof.
  intros Hreach Horder Hknown.
  assert (Hwin : is_Some (HGet db "win" username)).
  { destruct Hknown as [?|Hlose]; [done|]. apply (reachable_paired db Hreach). by right. }
  destruct Hwin as [wins Hwin]. exists wins.
  apply (fetchAllUserStats_elem db order _ Horder). eauto.
Qed.

End reachable_stores.

(** ** What a request changes, entry by entry *)

Section frames.

Import redis strconv.

Implicit Types (db : Client) (username : string) (rs : nat → nat).

Lemma HGetAll_Del db key key' :
  key ≠ key' → HGetAll (Del db key) key' = HGetAll db key'.
Proof. intros. unfold HGetAll, Del; cbn [hashes]. by simplify_map_eq. Qed.

Lemma HGet_resetGame_counter db username rs namespace username' :
  namespace = "win" ∨ namespace = "lose" →
  HGet (resetGame db username rs) namespace username' = HGet db namespace username'.
Proof.
  intros Hns. unfold resetGame. rewrite HGet_HSet.
  rewrite decide_False by (intros [Heq _]; destruct Hns; subst; key_clash).
  rewrite HGet_RPush, HGet_Del; [done|]. destruct Hns; subst; key_clash.
Qed.

(** The counter entries after a draw are those of the one call of
    [updateUserStats] the draw makes, if it makes one. *)
Lemma HGet_drawCard_counter db username (r : nat) rs namespace username' :
  namespace = "win" ∨ namespace = "lose" →
  HGet (drawCard db username r rs).2 namespace username' =
    if decide (deckOf db username = []) then
      HGet (updateUserStats db username true) namespace username'
    else if decide (selectedCard db username r = "Exploding Kitten"
                    ∧ defuseCharges db username ≤ 0) then
      HGet (updateUserStats db username false) namespace username'
    else HGet db namespace username'.
Proof.
  intros Hns. destruct (decide (deckOf db username = [])) as [Hempty|Hne].
  - by rewrite drawCard_empty.
  - rewrite drawCard_nonempty, handleDrawnCard_cases by done.
    set (card := selectedCard db username r).
    change (defuseCharges (LRem db ("deck:" +:+ username) 1 card) username)
      with (defuseCharges db username).
    destruct (decide (card = "Exploding Kitten")) as [Hk|Hk].
    + case_bool_decide as Hpos; cbn [snd].
      * rewrite decide_False by lia. rewrite HGet_HSet.
        rewrite decide_False; [done|].
        intros [Heq _]. destruct Hns; subst; key_clash.
      * rewrite decide_True by (split; [done|lia]).
        by rewrite !updateUserStats_lose.
    + rewrite (decide_False (P := card = _ ∧ _)) by tauto.
      repeat case_decide; cbn [snd]; rewrite ?HGet_resetGame_counter by done;
        rewrite ?HGet_HSet, ?HGet_LRem; try done.
      rewrite decide_False; [done|].
      intros [Heq _]. destruct Hns; subst; key_clash.
Qed.

Lemma HGet_startGame_counter db username rs namespace username' :
  namespace = "win" ∨ namespace = "lose" →
  HGet (startGame db username rs).2 namespace username' =
    if decide (deckOf db username = [] ∧ username = username') then Some "0"
    else HGet db namespace username'.
Proof.
  intros Hns. destruct (decide (deckOf db username = [])) as [Hempty|Hne].
  - rewrite startGame_create by done. rewrite !HGet_HSet.
    change (HGet (initializeDeck db username rs) namespace username')
      with (HGet db namespace username').
    destruct Hns as [-> | ->]; repeat case_decide; destruct_and?; try done; tauto.
  - rewrite startGame_resume by done. cbn [snd]. by rewrite decide_False by tauto.
Qed.

(** [startGame] never touches a defuse flag. *)
Lemma defuseCharges_startGame db username rs username' :
  defuseCharges (startGame db username rs).2 username' = defuseCharges db username'.
Proof.
  destruct (decide (deckOf db username = [])) as [Hempty|Hne].
  - rewrite startGame_create by done.
    by rewrite !defuseCharges_HSet_counter by auto.
  - by rewrite startGame_resume.
Qed.

Lemma defuseCharges_drawCard_other db username (r : nat) rs username' :
  username ≠ username' →
  defuseCharges (drawCard db username r rs).2 username' = defuseCharges db username'.
Proof.
  intros Hne. destruct (decide (deckOf db username = [])) as [Hempty|Hfull].
  - rewrite drawCard_empty by done. cbn [snd]. apply defuseCharges_updateUserStats.
  - rewrite drawCard_nonempty, handleDrawnCard_cases by done.
    repeat case_decide; try case_bool_decide; cbn [snd];
      rewrite ?defuseCharges_updateUserStats, ?defuseCharges_resetGame,
        ?(defuseCharges_HSet _ _ 0), ?(defuseCharges_HSet _ _ 1) by done;
      rewrite ?decide_False by key_clash; done.
Qed.

(** The deck a draw leaves. *)
Lemma deckOf_drawCard db username (r : nat) rs :
  deckOf db username ≠ [] →
  deckOf (drawCard db username r rs).2 username =
    if decide (selectedCard db username r = "Shuffle")
    then rand.Shuffle rs (length newDeckCards) swapAt newDeckCards
    else removeFromHead 1 (selectedCard db username r) (deckOf db username).
Proof.
  intros Hne. case_decide as Hcard.
  - rewrite drawCard_Shuffle by done. cbn [snd]. rewrite deckOf_resetGame.
    by rewrite decide_True.
  - rewrite drawCard_nonempty by done.
    by rewrite deckOf_handleDrawnCard, deckOf_LRem.
Qed.

Lemma deckOf_startGame db username rs :
  deckOf (startGame db username rs).2 username =
    if decide (deckOf db username = [])
    then rand.Shuffle rs (length newDeckCards) swapAt newDeckCards
    else deckOf db username.
Proof.
  case_decide as Hempty.
  - rewrite startGame_create by done. rewrite !deckOf_HSet.
    unfold deckOf, initializeDeck. rewrite LRange_RPush, decide_True by done.
    fold (deckOf db username). by rewrite Hempty.
  - by rewrite startGame_resume.
Qed.

End frames.

(** ** What the handlers keep true *)

Section invariant.

Import redis strconv.

Implicit Types (db : Client) (username : string) (rs : nat → nat).

Lemma removeFromHead_sublist (count : nat) (v : string) (l : list string) :
  removeFromHead count v l `sublist_of` l.
Proof.
  revert count. induction l as [|x l IH]; intros [|count]; cbn [removeFromHead];
    try done.
  case_decide; [apply sublist_cons|apply sublist_skip]; apply IH.
Qed.

Lemma removeFromHead_keeps (count : nat) (v x : string) (l : list string) :
  x ≠ v → x ∈ l → x ∈ removeFromHead count v l.
Proof.
  intros Hne. revert count. induction l as [|y l IH]; intros [|count] Hin;
    cbn [removeFromHead]; try done.
  apply elem_of_cons in Hin as [->|Hin].
  - rewrite decide_False by done. by left.
  - case_decide; [by apply IH|right; by apply IH].
Qed.

(** The deck holds the Defuse card once at most, so taking it out leaves none. *)
Lemma removeFromHead_last_Defuse (l : list string) :
  l ⊆+ newDeckCards → "Defuse" ∉ removeFromHead 1 "Defuse" l.
Proof.
  intros Hsub Hstill.
  assert (Hin : "Defuse" ∈ l).
  { eapply elem_of_sublist; [done|apply removeFromHead_sublist]. }
  destruct (removeFromHead_first "Defuse" l Hin) as (l1 & l2 & -> & _ & Hrem).
  rewrite Hrem in Hstill.
  assert (Hrest : l1 ++ l2 ⊆+ ["Cat"; "Cat"; "Shuffle"; "Exploding Kitten"]).
  { apply (submseteq_app_inv_l _ _ ["Defuse"]). cbn [app].
    etrans; [|etrans; [exact Hsub|]].
    - by rewrite Permutation_middle.
    - apply Permutation_submseteq. symmetry.
      apply (Permutation_middle ["Cat"; "Cat"] ["Shuffle"; "Exploding Kitten"] "Defuse"). }
  pose proof (elem_of_submseteq _ _ _ Hstill Hrest) as Hbad.
  by repeat (apply elem_of_cons in Hbad as [?|Hbad]; [done|]); apply elem_of_nil in Hbad.
Qed.

Lemma HGet_updateUserStats db username isWin namespace username' :
  HGet (updateUserStats db username isWin) namespace username' =
    if decide ((if isWin then "win" else "lose") = namespace ∧ username = username')
    then Some (Itoa (wrap (counter db namespace username' + 1)))
    else HGet db namespace username'.
Proof.
  destruct isWin; [rewrite updateUserStats_win|rewrite updateUserStats_lose];
    rewrite HGet_HSet; case_decide; destruct_and?; by subst.
Qed.

(** A store that shows the same data for a user keeps the user settled. *)
Lemma settled_frame db db' username :
  deckOf db' username = deckOf db username →
  HGet db' "win" username = HGet db "win" username →
  HGet db' "lose" username = HGet db "lose" username →
  defuseCharges db' username = defuseCharges db username →
  settled db username → settled db' username.
Proof. unfold settled. by intros -> -> -> ->. Qed.

Lemma settled_empty username : settled redis.empty username.
Proof.
  unfold settled. split_and!; [apply submseteq_nil_l|done|done|by left].
Qed.

Lemma settled_startGame db username rs username' :
  settled db username' → settled (startGame db username rs).2 username'.
Proof.
  intros Hsettled. destruct (decide (username = username')) as [<-|Hne].
  - destruct (decide (deckOf db username = [])) as [Hempty|Hfull];
      [|by rewrite startGame_resume].
    destruct Hsettled as (_ & Hnodeck & _ & _).
    destruct (Hnodeck Hempty) as [_ Hcharge].
    unfold settled.
    rewrite deckOf_startGame, defuseCharges_startGame, !HGet_startGame_counter by auto.
    rewrite !decide_True by done.
    pose proof (Shuffle_Permutation rs (length newDeckCards) newDeckCards) as Hperm.
    split_and!.
    + by apply Permutation_submseteq.
    + by intros ?%shuffled_nonempty.
    + intros _. split_and!; [|done|by eexists].
      rewrite Hperm. unfold newDeckCards. set_solver.
    + by left.
  - apply (settled_frame db); [| | |apply defuseCharges_startGame|done].
    + by apply deckOf_startGame_other.
    + rewrite HGet_startGame_counter by auto. by rewrite decide_False by tauto.
    + rewrite HGet_startGame_counter by auto. by rewrite decide_False by tauto.
Qed.

Lemma settled_drawCard db username (r : nat) rs username' :
  settled db username' → settled (drawCard db username r rs).2 username'.
Proof.
  intros Hsettled. destruct (decide (username = username')) as [<-|Hne].
  2: { apply (settled_frame db); [| | | |done].
       - by apply deckOf_drawCard_other.
       - rewrite HGet_drawCard_counter by auto.
         repeat case_decide; rewrite ?HGet_updateUserStats; try done;
           by rewrite decide_False by tauto.
       - rewrite HGet_drawCard_counter by auto.
         repeat case_decide; rewrite ?HGet_updateUserStats; try done;
           by rewrite decide_False by tauto.
       - by apply defuseCharges_drawCard_other. }
  destruct Hsettled as (Hsub & Hnodeck & Hdeck & Hflag).
  destruct (decide (deckOf db username = [])) as [Hempty|Hfull].
  - destruct (Hnodeck Hempty) as [Hlose Hcharge].
    unfold settled. rewrite drawCard_empty by done. cbn [snd].
    rewrite deckOf_updateUserStats, defuseCharges_updateUserStats, Hempty.
    rewrite HGet_updateUserStats, decide_False by (by intros [? _]).
    split_and!; [apply submseteq_nil_l|done|done|by left].
  - destruct (Hdeck Hfull) as (Hshuffle & Hwin & Hlose).
    pose proof (Shuffle_Permutation rs (length newDeckCards) newDeckCards) as Hperm.
    set (card := selectedCard db username r) in *.
    assert (Hafter : "Shuffle" ∈ deckOf (drawCard db username r rs).2 username
                     ∧ deckOf (drawCard db username r rs).2 username ⊆+ newDeckCards).
    { rewrite deckOf_drawCard by done. fold card. case_decide as Hcard.
      - split; [|by apply Permutation_submseteq].
        rewrite Hperm. unfold newDeckCards. set_solver.
      - split; [by apply removeFromHead_keeps|].
        etrans; [apply sublist_submseteq, removeFromHead_sublist|done]. }
    destruct Hafter as [Hshuffle' Hsub'].
    unfold settled. split_and!.
    + done.
    + intros Hnil. rewrite Hnil in Hshuffle'. by apply elem_of_nil in Hshuffle'.
    + intros _. split_and!; [done| |].
      * rewrite HGet_drawCard_counter, decide_False by auto.
        case_decide; [|done].
        by rewrite HGet_updateUserStats, decide_False by (by intros [? _]).
      * exact (proj2 (counter_entry_kept db username r rs "lose" username
                        (or_intror eq_refl) Hlose)).
    + rewrite defuseCharges_drawCard, deckOf_drawCard by done. fold card.
      destruct (decide (card = "Exploding Kitten")) as [Hk|Hk].
      { case_bool_decide; [by left|]. destruct Hflag as [?|[? _]]; [by left|lia]. }
      destruct (decide (card = "Defuse")) as [Hd|Hd].
      { right. split; [done|]. rewrite Hd, decide_False by done.
        by apply removeFromHead_last_Defuse. }
      destruct (decide (card = "Shuffle")) as [Hs|Hs]; [by left|].
      destruct Hflag as [?|[? Hgone]]; [by left|right]. split; [done|].
      intros Hin. apply Hgone.
      eapply elem_of_sublist; [done|apply removeFromHead_sublist].
Qed.

(** Every store the handlers produce from an empty one is settled for
    every user. *)
Lemma reachable_settled db username : reachable db → settled db username.
Proof.
  induction 1 as [|db username' rs _ IH|db username' r rs _ IH].
  - apply settled_empty.
  - by apply settled_startGame.
  - by apply settled_drawCard.
Qed.

End invariant.

(** ** The game as the server plays it from an empty store *)

Section play.

Import redis strconv.

Implicit Types (db : Client) (username : string) (rs : nat → nat).

Lemma reachable_started : reachable started.
Proof. apply reachable_startGame, reachable_empty. Qed.

Lemma reachable_twoPlayers : reachable twoPlayers.
Proof. apply reachable_startGame, reachable_started. Qed.

(** A dealt deck stays a deck: the next request, by anybody, leaves it
    non-empty. *)
Lemma settled_deck_stays db username :
  settled db username → deckOf db username ≠ [] →
  ∀ db', settled db' username →
    (is_Some (HGet db "lose" username) → is_Some (HGet db' "lose" username)) →
    deckOf db' username ≠ [].
Proof.
  intros (_ & _ & Hdeck & _) Hfull db' (_ & Hnodeck' & _ & _) Hkept Hnil.
  destruct (Hdeck Hfull) as (_ & _ & Hlose).
  destruct (Hnodeck' Hnil) as [Hnone _].
  apply Hkept in Hlose as [str Hsome]. by rewrite Hnone in Hsome.
Qed.

(** X1: on every store the handlers produce from an empty one, a user's deck
    is made of cards of the five (no card more often than the new deck has
    it), so it has at most five cards, and a non-empty deck holds the Shuffle
    card. *)
Theorem X1_deck_is_part_of_the_five db username :
  reachable db →
  deckOf db username ⊆+ newDeckCards ∧
  (length (deckOf db username) ≤ 5)%nat ∧
  (deckOf db username ≠ [] → "Shuffle" ∈ deckOf db username).
Proof.
  intros Hreach. destruct (reachable_settled db username Hreach) as (Hsub & _ & Hdeck & _).
  split_and!; [done|apply (submseteq_length _ _ Hsub)|].
  intros Hfull. by destruct (Hdeck Hfull).
Qed.

Lemma X1_deck_is_part_of_the_five_witness :
  reachable (drawCard started "bob" 3 zeros).2 ∧
  deckOf (drawCard started "bob" 3 zeros).2 "bob" ⊆+ newDeckCards ∧
  "Shuffle" ∈ deckOf (drawCard started "bob" 3 zeros).2 "bob".
Proof.
  assert (Hreach : reachable (drawCard started "bob" 3 zeros).2)
    by apply reachable_drawCard, reachable_started.
  split; [exact Hreach|].
  destruct (X1_deck_is_part_of_the_five _ "bob" Hreach) as (Hsub & _ & Hshuffle).
  split; [exact Hsub|]. apply Hshuffle. vm_compute. discriminate.
Defined.

(** X2: once a user has a deck, no request empties it: after any
    [startGame] or [drawCard], for any user and any outputs of the generator,
    the deck is still non-empty. The exhausted-deck branch of [drawCard] is
    only ever taken for a user who has no deck. *)
Theorem X2_dealt_deck_is_never_emptied db username username' (r : nat) rs :
  reachable db →
  deckOf db username ≠ [] →
  deckOf (startGame db username' rs).2 username ≠ [] ∧
  deckOf (drawCard db username' r rs).2 username ≠ [].
Proof.
  intros Hreach Hfull.
  pose proof (reachable_settled db username Hreach) as Hsettled.
  split.
  - apply (settled_deck_stays db username Hsettled Hfull);
      [by apply settled_startGame|].
    intros Hlose. by apply (counter_entry_kept db username' r rs "lose" username); [right|].
  - apply (settled_deck_stays db username Hsettled Hfull);
      [by apply settled_drawCard|].
    intros Hlose. by apply (counter_entry_kept db username' r rs "lose" username); [right|].
Qed.

Lemma X2_dealt_deck_is_never_emptied_witness :
  reachable started ∧ deckOf started "bob" ≠ [] ∧
  deckOf (drawCard started "bob" 2 zeros).2 "bob" ≠ [].
Proof.
  assert (Hfull : deckOf started "bob" ≠ []) by (vm_compute; discriminate).
  split; [apply reachable_started|]. split; [exact Hfull|].
  by destruct (X2_dealt_deck_is_never_emptied started "bob" "bob" 2%nat zeros
                 reachable_started Hfull).
Defined.

(** X3: a user who has a deck has no recorded win: the wins entry is the
    "0" that [startGame] wrote. Wins are only ever added for a user without a
    deck, and the next [startGame] puts them back to 0. *)
Theorem X3_player_with_deck_has_no_win db username :
  reachable db →
  deckOf db username ≠ [] →
  HGet db "win" username = Some "0" ∧ wins db username = 0.
Proof.
  intros Hreach Hfull.
  destruct (reachable_settled db username Hreach) as (_ & _ & Hdeck & _).
  destruct (Hdeck Hfull) as (_ & Hwin & _).
  split; [done|]. unfold wins, counter. by rewrite Hwin.
Qed.

Lemma X3_player_with_deck_has_no_win_witness :
  reachable (startGame drewFirst "alice" zeros).2 ∧
  deckOf (startGame drewFirst "alice" zeros).2 "alice" ≠ [] ∧
  wins drewFirst "alice" = 1 ∧
  wins (startGame drewFirst "alice" zeros).2 "alice" = 0.
Proof.
  assert (Hreach : reachable (startGame drewFirst "alice" zeros).2)
    by apply reachable_startGame, reachable_drawCard, reachable_empty.
  assert (Hfull : deckOf (startGame drewFirst "alice" zeros).2 "alice" ≠ [])
    by (vm_compute; discriminate).
  split; [exact Hreach|]. split; [exact Hfull|]. split; [vm_compute; reflexivity|].
  by destruct (X3_player_with_deck_has_no_win _ "alice" Hreach Hfull).
Defined.

(** X4: a username has a losses entry exactly when it has a deck. *)
Theorem X4_losses_entry_goes_with_the_deck db username :
  reachable db →
  is_Some (HGet db "lose" username) ↔ deckOf db username ≠ [].
Proof.
  intros Hreach.
  destruct (reachable_settled db username Hreach) as (_ & Hnodeck & Hdeck & _).
  split.
  - intros [str Hlose] Hnil. destruct (Hnodeck Hnil) as [Hnone _].
    by rewrite Hnone in Hlose.
  - intros Hfull. by destruct (Hdeck Hfull) as (_ & _ & ?).
Qed.

Lemma X4_losses_entry_goes_with_the_deck_witness :
  reachable drewFirst ∧
  deckOf drewFirst "alice" = [] ∧ HGet drewFirst "lose" "alice" = None ∧
  HGet drewFirst "win" "alice" = Some "1".
Proof.
  assert (Hreach : reachable drewFirst) by apply reachable_drawCard, reachable_empty.
  split; [exact Hreach|].
  assert (Hnil : deckOf drewFirst "alice" = []) by (vm_compute; reflexivity).
  split; [exact Hnil|]. split; [|vm_compute; reflexivity].
  destruct (HGet drewFirst "lose" "alice") as [str|] eqn:Hlose; [|done].
  destruct (proj1 (X4_losses_entry_goes_with_the_deck drewFirst "alice" Hreach));
    [by eexists|done].
Defined.

(** X5: in play the defuse count is 0 or 1, and it is 1 only while the
    Defuse card is out of the deck. So there a Defuse draw raises the count
    by exactly 1 and a defused Exploding Kitten lowers it by exactly 1. *)
Theorem X5_defuse_count_in_play db username (r : nat) rs :
  reachable db →
  (defuseCharges db username = 0 ∨
   defuseCharges db username = 1 ∧ "Defuse" ∉ deckOf db username) ∧
  (selectedCard db username r = "Defuse" →
     defuseCharges (drawCard db username r rs).2 username
     = defuseCharges db username + 1) ∧
  (selectedCard db username r = "Exploding Kitten" → 0 < defuseCharges db username →
     defuseCharges (drawCard db username r rs).2 username
     = defuseCharges db username - 1).
Proof.
  intros Hreach.
  destruct (reachable_settled db username Hreach) as (_ & _ & _ & Hflag).
  rewrite defuseCharges_drawCard. split_and!; [done| |].
  - intros Hcard. rewrite Hcard. rewrite decide_False, decide_True by done.
    destruct Hflag as [->|[_ Hgone]]; [done|]. exfalso. apply Hgone.
    rewrite <- Hcard. eapply list_elem_of_lookup_2, selectedCard_lookup.
    intros Hnil. unfold selectedCard in Hcard. by rewrite Hnil in Hcard.
  - intros Hcard Hpos. rewrite Hcard, decide_True, bool_decide_eq_true_2 by done.
    destruct Hflag as [?|[-> _]]; [lia|done].
Qed.

Lemma X5_defuse_count_in_play_witness :
  reachable started ∧
  selectedCard started "bob" 1 = "Defuse" ∧
  defuseCharges started "bob" = 0 ∧
  defuseCharges (drawCard started "bob" 1 zeros).2 "bob" = 0 + 1.
Proof.
  split; [apply reachable_started|].
  assert (Hcard : selectedCard started "bob" 1 = "Defuse") by (vm_compute; reflexivity).
  assert (Hzero : defuseCharges started "bob" = 0) by (vm_compute; reflexivity).
  split; [exact Hcard|]. split; [exact Hzero|].
  destruct (X5_defuse_count_in_play started "bob" 1%nat zeros reachable_started)
    as (_ & Hdefuse & _).
  by rewrite (Hdefuse Hcard), Hzero.
Defined.

(** X6: a request of one user changes nothing for another: the other
    user's deck, wins entry, losses entry and defuse count are the same after
    a [startGame] or a [drawCard], on any store. *)
Theorem X6_requests_do_not_cross_users db username username' (r : nat) rs :
  username ≠ username' →
  (deckOf (startGame db username rs).2 username' = deckOf db username' ∧
   HGet (startGame db username rs).2 "win" username' = HGet db "win" username' ∧
   HGet (startGame db username rs).2 "lose" username' = HGet db "lose" username' ∧
   defuseCharges (startGame db username rs).2 username' = defuseCharges db username') ∧
  (deckOf (drawCard db username r rs).2 username' = deckOf db username' ∧
   HGet (drawCard db username r rs).2 "win" username' = HGet db "win" username' ∧
   HGet (drawCard db username r rs).2 "lose" username' = HGet db "lose" username' ∧
   defuseCharges (drawCard db username r rs).2 username' = defuseCharges db username').
Proof.
  intros Hne. split; split_and!.
  - by apply deckOf_startGame_other.
  - rewrite HGet_startGame_counter by auto. by rewrite decide_False by tauto.
  - rewrite HGet_startGame_counter by auto. by rewrite decide_False by tauto.
  - apply defuseCharges_startGame.
  - by apply deckOf_drawCard_other.
  - rewrite HGet_drawCard_counter by auto.
    repeat case_decide; rewrite ?HGet_updateUserStats; try done;
      by rewrite decide_False by tauto.
  - rewrite HGet_drawCard_counter by auto.
    repeat case_decide; rewrite ?HGet_updateUserStats; try done;
      by rewrite decide_False by tauto.
  - by apply defuseCharges_drawCard_other.
Qed.

Lemma X6_requests_do_not_cross_users_witness :
  "bob" ≠ "alice" ∧
  deckOf (drawCard twoPlayers "bob" 3 zeros).2 "alice" = deckOf twoPlayers "alice" ∧
  HGet (drawCard twoPlayers "bob" 3 zeros).2 "lose" "alice" = HGet twoPlayers "lose" "alice".
Proof.
  assert (Hne : "bob" ≠ "alice") by discriminate.
  split; [exact Hne|].
  destruct (X6_requests_do_not_cross_users twoPlayers "bob" "alice" 3%nat zeros Hne)
    as (_ & Hdeck & _ & Hlose & _).
  split; [exact Hdeck|exact Hlose].
Defined.

End play.

(** ** Counting *)

Section counting.

Import redis strconv.

Implicit Types (db : Client) (username : string) (rs : nat → nat).

(** X7: [n] updates in a row add exactly [n]: after [n] calls of
    [updateUserStats] for a user, all wins or all losses, the counter reads
    [n] more than before as long as that stays within [int]; the other
    counter of the user is as it was. *)
Theorem X7_updates_add_up db username (isWin : bool) (n : nat) :
  let mine := if isWin then "win" else "lose" in
  let other := if isWin then "lose" else "win" in
  let after := Nat.iter n (λ db, updateUserStats db username isWin) db in
  counter db mine username + Z.of_nat n ≤ MaxInt →
  counter after mine username = counter db mine username + Z.of_nat n ∧
  counter after other username = counter db other username.
Proof.
  intros mine other after. subst after. induction n as [|n IH]; intros Hfits.
  - change (Nat.iter 0 (λ db, updateUserStats db username isWin) db) with db.
    split; [lia|done].
  - rewrite Nat.iter_succ. destruct IH as [IHmine IHother]; [lia|].
    rewrite !counter_updateUserStats. fold mine.
    rewrite decide_True by done.
    rewrite decide_False by (subst mine other; intros [? _]; by destruct isWin).
    rewrite IHmine, IHother. split; [|done].
    pose proof (counter_range db mine username).
    rewrite wrap_small by (unfold MinInt in *; lia). lia.
Qed.

Lemma X7_updates_add_up_witness :
  counter started "lose" "bob" + Z.of_nat 3 ≤ MaxInt ∧
  counter (Nat.iter 3 (λ db, updateUserStats db "bob" false) started) "lose" "bob"
  = counter started "lose" "bob" + Z.of_nat 3.
Proof.
  assert (Hfits : counter started "lose" "bob" + Z.of_nat 3 ≤ MaxInt)
    by (vm_compute; discriminate).
  split; [exact Hfits|].
  by destruct (X7_updates_add_up started "bob" false 3 Hfits).
Defined.

(** X8: a counter that cannot be read is counted from zero. When the entry
    is missing, or holds text that [Atoi] rejects (no number, or a number
    outside [int]), the update stores "1". *)
Theorem X8_unreadable_counter_restarts db username (isWin : bool) :
  let mine := if isWin then "win" else "lose" in
  HGet db mine username = None ∨
  (∃ str, HGet db mine username = Some str ∧ (Atoi str).2 ≠ None) →
  HGet (updateUserStats db username isWin) mine username = Some "1".
Proof.
  intros mine Hbad. rewrite HGet_updateUserStats. fold mine.
  rewrite decide_True by done.
  assert (counter db mine username = 0) as ->; [|done].
  unfold counter. destruct Hbad as [-> | (str & -> & Herr)]; [done|].
  by destruct (Atoi str) as [value [err|]].
Qed.

Lemma X8_unreadable_counter_restarts_witness :
  HGet garbled "lose" "bob" = Some "abc" ∧ (Atoi "abc").2 ≠ None ∧
  HGet (updateUserStats garbled "bob" false) "lose" "bob" = Some "1".
Proof.
  assert (Hread : HGet garbled "lose" "bob" = Some "abc") by (vm_compute; reflexivity).
  assert (Herr : (Atoi "abc").2 ≠ None) by (vm_compute; discriminate).
  split; [exact Hread|]. split; [exact Herr|].
  apply (X8_unreadable_counter_restarts garbled "bob" false).
  right. exists "abc". by split.
Defined.

(** X9: nothing guards the addition. A counter that holds the largest
    [int] wraps around to the smallest one on the next update. *)
Theorem X9_counter_wraps_at_the_largest_int db username (isWin : bool) :
  let mine := if isWin then "win" else "lose" in
  counter db mine username = MaxInt →
  counter (updateUserStats db username isWin) mine username = MinInt ∧
  HGet (updateUserStats db username isWin) mine username = Some "-9223372036854775808".
Proof.
  intros mine Hmax.
  rewrite counter_updateUserStats, HGet_updateUserStats. fold mine.
  rewrite !decide_True by done. by rewrite Hmax.
Qed.

Lemma X9_counter_wraps_at_the_largest_int_witness :
  counter brimful "lose" "bob" = MaxInt ∧
  counter (updateUserStats brimful "bob" false) "lose" "bob" = MinInt.
Proof.
  assert (Hmax : counter brimful "lose" "bob" = MaxInt) by (vm_compute; reflexivity).
  split; [exact Hmax|].
  by destruct (X9_counter_wraps_at_the_largest_int brimful "bob" false Hmax).
Defined.

(** X10: a draw from a non-empty deck leaves five cards when the Shuffle
    card was selected and one card less otherwise, the losing draw
    included. *)
Theorem X10_deck_size_after_a_draw db username (r : nat) rs :
  deckOf db username ≠ [] →
  length (deckOf (drawCard db username r rs).2 username) =
    if decide (selectedCard db username r = "Shuffle") then 5%nat
    else (length (deckOf db username) - 1)%nat.
Proof.
  intros Hfull. rewrite deckOf_drawCard by done. case_decide as Hcard.
  - by rewrite Shuffle_length.
  - destruct (removeFromHead_first (selectedCard db username r) (deckOf db username))
      as (l1 & l2 & Hdeck & _ & ->).
    + eapply list_elem_of_lookup_2. by apply selectedCard_lookup.
    + rewrite Hdeck, !length_app. cbn [length]. lia.
Qed.

Lemma X10_deck_size_after_a_draw_witness :
  deckOf started "bob" ≠ [] ∧
  selectedCard started "bob" 3 = "Exploding Kitten" ∧
  length (deckOf (drawCard started "bob" 3 zeros).2 "bob") = 4%nat.
Proof.
  assert (Hfull : deckOf started "bob" ≠ []) by (vm_compute; discriminate).
  split; [exact Hfull|]. split; [vm_compute; reflexivity|].
  by rewrite (X10_deck_size_after_a_draw started "bob" 3%nat zeros Hfull).
Defined.

End counting.

(** ** Connections coming and going *)

Section connections.

Implicit Types (db : redis.Client) (order : list (string * string))
  (h : Hub) (conn : Conn) (fails : Conn → bool).

(** What [range clients] may yield for a hub. *)
Lemma rangeOver_clients h (connOrder : list Conn) conn :
  connOrder ≡ₚ (map_to_list (clients h)).*1 →
  NoDup connOrder ∧ (conn ∈ connOrder ↔ is_Some (clients h !! conn)).
Proof.
  intros Horder. split; [rewrite Horder; apply NoDup_fst_map_to_list|].
  rewrite Horder, list_elem_of_fmap. split.
  - intros ([conn' flag] & -> & Hentry). apply elem_of_map_to_list in Hentry. by eexists.
  - intros [flag Hflag]. exists (conn, flag). split; [done|].
    by apply elem_of_map_to_list.
Qed.

(** X13: a new websocket connection is registered and sent one snapshot,
    and nobody else is sent anything. When that first write fails the
    connection ends up closed and not registered. Other connections keep
    their registration, what they were sent and their state. *)
Theorem X13_serveWs_greets_the_newcomer_only db order fails h conn :
  let after := serveWs db order fails h conn in
  (fails conn = false → conn ∉ closed h →
     clients after !! conn = Some true ∧
     written after !! conn
       = Some (default [] (written h !! conn) ++ [fetchAllUserStats db order]) ∧
     closed after = closed h) ∧
  (fails conn = true ∨ conn ∈ closed h →
     clients after !! conn = None ∧ conn ∈ closed after ∧ written after = written h) ∧
  (∀ conn', conn' ≠ conn →
     clients after !! conn' = clients h !! conn' ∧
     written after !! conn' = written h !! conn' ∧
     (conn' ∈ closed after ↔ conn' ∈ closed h)).
Proof.
  intros after. subst after. unfold serveWs, sendLeaderboard, WriteJSON.
  cbn [closed clients written]. split_and!.
  - intros Hok Hopen. rewrite Hok, bool_decide_eq_false_2 by done. cbn.
    split_and!; [by simplify_map_eq|by simplify_map_eq|done].
  - intros Hbad.
    assert (fails conn || bool_decide (conn ∈ closed h) = true) as ->.
    { destruct Hbad as [-> | Hclosed]; [done|].
      by rewrite bool_decide_eq_true_2, orb_true_r. }
    cbn. split_and!; [by simplify_map_eq| |done].
    rewrite elem_of_union, elem_of_singleton. by left.
  - intros conn' Hne.
    destruct (fails conn || bool_decide (conn ∈ closed h)); cbn.
    + split_and!; [by simplify_map_eq|done|].
      rewrite elem_of_union, elem_of_singleton. tauto.
    + split_and!; [by simplify_map_eq|by simplify_map_eq|done].
Qed.

(** X14: when the read loop of a connection ends, the connection is deleted
    from [clients] and closed, the other registrations stay, and a later
    broadcast writes nothing to it. *)
Theorem X14_left_connection_gets_no_broadcast db order fails h conn
    (connOrder : list Conn) :
  let gone := serveWsDone h conn in
  connOrder ≡ₚ (map_to_list (clients gone)).*1 →
  clients gone !! conn = None ∧
  conn ∈ closed gone ∧
  (∀ conn', conn' ≠ conn → clients gone !! conn' = clients h !! conn') ∧
  written (broadcastLeaderboard db order fails connOrder gone) !! conn
    = written h !! conn.
Proof.
  intros gone Horder.
  assert (Hout : clients gone !! conn = None).
  { unfold gone, serveWsDone, Close, unregister. cbn. by simplify_map_eq. }
  split_and!.
  - done.
  - unfold gone, serveWsDone, Close. cbn.
    rewrite elem_of_union, elem_of_singleton. by left.
  - intros conn' Hne. unfold gone, serveWsDone, Close, unregister. cbn.
    by simplify_map_eq.
  - destruct (rangeOver_clients gone connOrder conn Horder) as [Hnodup Hin].
    destruct (broadcast_loop fails (fetchAllUserStats db order) connOrder Hnodup
                gone conn) as (Hskipped & _).
    destruct Hskipped as (_ & Hwritten & _).
    + rewrite Hin, Hout. by intros [? ?].
    + exact Hwritten.
Qed.

Lemma X14_left_connection_gets_no_broadcast_witness :
  let gone := serveWsDone threeClients 2%nat in
  let connOrder := (map_to_list (clients gone)).*1 in
  connOrder ≡ₚ (map_to_list (clients gone)).*1 ∧
  clients gone !! (2%nat : Conn) = None ∧
  written (broadcastLeaderboard started [("bob", "0")] (λ _, false) connOrder gone)
    !! (2%nat : Conn) = written threeClients !! (2%nat : Conn).
Proof.
  intros gone connOrder.
  assert (Horder : connOrder ≡ₚ (map_to_list (clients gone)).*1) by done.
  split; [exact Horder|].
  destruct (X14_left_connection_gets_no_broadcast started [("bob", "0")] (λ _, false)
              threeClients 2%nat connOrder Horder) as (Hout & _ & _ & Hwritten).
  split; [exact Hout|exact Hwritten].
Defined.

(** X15: after a broadcast every client still registered was registered
    before, took the write, and is open: the failing ones are all gone after
    one pass. *)
Theorem X15_broadcast_leaves_live_clients db order fails (connOrder : list Conn) h conn :
  connOrder ≡ₚ (map_to_list (clients h)).*1 →
  let after := broadcastLeaderboard db order fails connOrder h in
  is_Some (clients after !! conn) →
  clients after !! conn = clients h !! conn ∧
  fails conn = false ∧
  (conn ∉ closed after) ∧
  (∃ sent, written after !! conn = Some (sent ++ [fetchAllUserStats db order])).
Proof.
  intros Horder after Hreg.
  destruct (rangeOver_clients h connOrder conn Horder) as [Hnodup Hin].
  destruct (broadcast_loop fails (fetchAllUserStats db order) connOrder Hnodup h conn)
    as (Hskipped & Hsent & Hdropped).
  fold (broadcastLeaderboard db order fails connOrder h) in Hskipped, Hsent, Hdropped.
  fold after in Hskipped, Hsent, Hdropped.
  destruct (decide (conn ∈ connOrder)) as [Hvisited|Hnot].
  - destruct (fails conn) eqn:Hfails.
    { destruct Hdropped as (Hnone & _); [done|by left|].
      rewrite Hnone in Hreg. by destruct Hreg. }
    destruct (decide (conn ∈ closed h)) as [Hclosed|Hopen].
    { destruct Hdropped as (Hnone & _); [done|by right|].
      rewrite Hnone in Hreg. by destruct Hreg. }
    destruct Hsent as (Hclients & Hwritten & Hopen'); [done..|].
    split_and!; [done..|by eexists].
  - destruct (Hskipped Hnot) as (Hclients & _).
    rewrite Hclients in Hreg. by apply Hin in Hreg.
Qed.

Lemma X15_broadcast_leaves_live_clients_witness :
  let fails : Conn → bool := λ conn, bool_decide (conn = 2%nat) in
  let connOrder := (map_to_list (clients threeClients)).*1 in
  let after := broadcastLeaderboard started [("bob", "0")] fails connOrder threeClients in
  connOrder ≡ₚ (map_to_list (clients threeClients)).*1 ∧
  is_Some (clients after !! (3%nat : Conn)) ∧
  (3%nat : Conn) ∉ closed after.
Proof.
  intros fails connOrder after.
  assert (Horder : connOrder ≡ₚ (map_to_list (clients threeClients)).*1) by done.
  assert (Hreg : is_Some (clients after !! (3%nat : Conn))).
  { exists true. vm_compute. reflexivity. }
  split; [exact Horder|]. split; [exact Hreg|].
  by destruct (X15_broadcast_leaves_live_clients started [("bob", "0")] fails connOrder
                 threeClients 3%nat Horder Hreg) as (_ & _ & Hopen & _).
Defined.

(** X16: the snapshot does not depend on the order in which the wins
    namespace is ranged over, except for the order of its rows. *)
Theorem X16_snapshot_rows_do_not_depend_on_the_order db order order' :
  rangeOver (redis.HGetAll db "win") order →
  rangeOver (redis.HGetAll db "win") order' →
  fetchAllUserStats db order ≡ₚ fetchAllUserStats db order'.
Proof.
  unfold rangeOver. intros Horder Horder'.
  rewrite !fetchAllUserStats_rows. apply fmap_Permutation.
  by rewrite Horder, Horder'.
Qed.

Lemma X16_snapshot_rows_do_not_depend_on_the_order_witness :
  let order := map_to_list (redis.HGetAll twoPlayers "win") in
  rangeOver (redis.HGetAll twoPlayers "win") order ∧
  rangeOver (redis.HGetAll twoPlayers "win") (reverse order) ∧
  fetchAllUserStats twoPlayers order ≡ₚ fetchAllUserStats twoPlayers (reverse order).
Proof.
  intros order.
  assert (Hfirst : rangeOver (redis.HGetAll twoPlayers "win") order)
    by (unfold rangeOver; reflexivity).
  assert (Hsecond : rangeOver (redis.HGetAll twoPlayers "win") (reverse order))
    by (unfold rangeOver; apply reverse_Permutation).
  split; [exact Hfirst|]. split; [exact Hsecond|].
  exact (X16_snapshot_rows_do_not_depend_on_the_order twoPlayers order (reverse order)
           Hfirst Hsecond).
Defined.

End connections.

(** ** The earlier variant and the dealing of a deck *)

Section earlier_variant.

Import redis strconv.

Implicit Types (db : Client) (username : string) (rs : nat → nat).

(** The transition table of the earlier [handleDrawnCard]. *)
Lemma main2_handleDrawnCard_cases db (drawnCard : string) username :
  main2.handleDrawnCard db drawnCard username =
    if decide (drawnCard = "Exploding Kitten") then
      (playerLost, main2.resetGame db username)
    else if decide (drawnCard = "Defuse") then
      (defuseAcquired, HSet db ("user:" +:+ username) ["defuse"; Itoa 1])
    else if decide (drawnCard = "Shuffle") then
      (deckReshuffled, main2.resetGame db username)
    else
      (reply "You drew a Cat card!"
             (default "" (Emoji <$> List.find
                (λ card, bool_decide (Type_ card = drawnCard)) cards)), db).
Proof.
  destruct (decide (drawnCard = "Exploding Kitten")) as [->|HnK]; [reflexivity|].
  destruct (decide (drawnCard = "Defuse")) as [->|HnD]; [reflexivity|].
  destruct (decide (drawnCard = "Shuffle")) as [->|HnS]; [reflexivity|].
  destruct (decide (drawnCard = "Cat")) as [->|HnC]; [reflexivity|].
  unfold main2.handleDrawnCard. cbn [List.find cards Type_].
  by rewrite !bool_decide_eq_false_2 by congruence.
Qed.

Lemma main2_drawCard_nonempty db username (r : nat) :
  deckOf db username ≠ [] →
  main2.drawCard db username r =
    main2.handleDrawnCard (LRem db ("deck:" +:+ username) 1 (selectedCard db username r))
                          (selectedCard db username r) username.
Proof.
  unfold deckOf, main2.drawCard, selectedCard, deckOf. intros Hne.
  rewrite decide_False; [done|]. by intros ?%nil_length_inv.
Qed.

Lemma main2_drawCard_empty db username (r : nat) :
  deckOf db username = [] → main2.drawCard db username r = (deckExhausted, db).
Proof. unfold deckOf, main2.drawCard. intros ->. by rewrite decide_True. Qed.

Lemma selectedCard_nonempty db username (r : nat) :
  selectedCard db username r ≠ "" → deckOf db username ≠ [].
Proof. intros Hcard Hnil. apply Hcard. unfold selectedCard. by rewrite Hnil. Qed.

(** X17: in the earlier variant a Defuse card never saves the player. An
    Exploding Kitten draw is always answered "You lose!", however many defuse
    charges are stored; the deck is put back to the five cards in the order
    of the literal, and the stored defuse flag is left as it was. *)
Theorem X17_main2_kitten_always_loses db username (r : nat) :
  selectedCard db username r = "Exploding Kitten" →
  (main2.drawCard db username r).1 = playerLost ∧
  deckOf (main2.drawCard db username r).2 username = newDeckCards ∧
  defuseCharges (main2.drawCard db username r).2 username = defuseCharges db username.
Proof.
  intros Hcard.
  rewrite main2_drawCard_nonempty by (apply (selectedCard_nonempty _ _ r); by rewrite Hcard).
  rewrite Hcard, main2_handleDrawnCard_cases, decide_True by done. cbn [fst snd].
  destruct (main2_resetGame_unshuffled
              (LRem db ("deck:" +:+ username) 1 "Exploding Kitten") username)
    as [Hdeck Hflag].
  by rewrite Hdeck, Hflag.
Qed.

Lemma X17_main2_kitten_always_loses_witness :
  selectedCard (charged 1) "bob" 3 = "Exploding Kitten" ∧
  defuseCharges (charged 1) "bob" = 1 ∧
  (main2.drawCard (charged 1) "bob" 3).1 = playerLost ∧
  (drawCard (charged 1) "bob" 3 zeros).1 = defused.
Proof.
  assert (Hcard : selectedCard (charged 1) "bob" 3 = "Exploding Kitten")
    by (vm_compute; reflexivity).
  split; [exact Hcard|]. split; [vm_compute; reflexivity|].
  split; [|vm_compute; reflexivity].
  by destruct (X17_main2_kitten_always_loses (charged 1) "bob" 3%nat Hcard).
Defined.

(** X18: the earlier variant keeps no score: neither [startGame] nor
    [drawCard] changes the wins or the losses namespace, whatever is drawn. *)
Theorem X18_main2_keeps_no_score db username (r : nat) rs namespace :
  namespace = "win" ∨ namespace = "lose" →
  HGetAll (main2.startGame db username rs).2 namespace = HGetAll db namespace ∧
  HGetAll (main2.drawCard db username r).2 namespace = HGetAll db namespace.
Proof.
  intros Hns.
  assert (Hreset : ∀ db', HGetAll (main2.resetGame db' username) namespace
                          = HGetAll db' namespace).
  { intros db'. unfold main2.resetGame.
    change (HGetAll (RPush ?d ?k ?l) namespace) with (HGetAll d namespace).
    apply HGetAll_Del. destruct Hns; subst; key_clash. }
  split.
  - unfold main2.startGame. by case_bool_decide.
  - destruct (decide (deckOf db username = [])) as [Hempty|Hfull].
    + by rewrite main2_drawCard_empty.
    + rewrite main2_drawCard_nonempty, main2_handleDrawnCard_cases by done.
      repeat case_decide; cbn [snd]; rewrite ?Hreset; try done.
      rewrite HGetAll_HSet, decide_False; [done|]. destruct Hns; subst; key_clash.
Qed.

Lemma X18_main2_keeps_no_score_witness :
  ("lose" = "win" ∨ "lose" = "lose") ∧
  HGetAll (main2.drawCard started "bob" 3).2 "lose" = HGetAll started "lose".
Proof.
  assert (Hns : "lose" = "win" ∨ "lose" = "lose") by (right; reflexivity).
  split; [exact Hns|].
  by destruct (X18_main2_keeps_no_score started "bob" 3%nat zeros "lose" Hns).
Defined.

(** X19: in the earlier variant the defuse flag is only ever set: a draw
    stores 1 when the Defuse card is selected and leaves the flag alone
    otherwise; no draw clears it. *)
Theorem X19_main2_defuse_flag_is_never_cleared db username (r : nat) :
  defuseCharges (main2.drawCard db username r).2 username =
    if decide (selectedCard db username r = "Defuse") then 1
    else defuseCharges db username.
Proof.
  destruct (decide (deckOf db username = [])) as [Hempty|Hfull].
  - rewrite main2_drawCard_empty by done.
    rewrite decide_False; [done|].
    unfold selectedCard. by rewrite Hempty.
  - rewrite main2_drawCard_nonempty, main2_handleDrawnCard_cases by done.
    set (card := selectedCard db username r).
    assert (Hreset : defuseCharges (main2.resetGame (LRem db ("deck:" +:+ username) 1 card)
                                      username) username
                     = defuseCharges db username).
    { by destruct (main2_resetGame_unshuffled (LRem db ("deck:" +:+ username) 1 card)
                     username) as [_ ->]. }
    destruct (decide (card = "Exploding Kitten")) as [Hk|Hk];
      [by rewrite decide_False by (rewrite Hk; done)|].
    destruct (decide (card = "Defuse")) as [Hd|Hd].
    { cbn [snd]. rewrite (defuseCharges_HSet _ _ 1) by done. by rewrite decide_True. }
    by destruct (decide (card = "Shuffle")).
Qed.

(** X20: [initializeDeck] does not look at what is stored: it appends the
    five shuffled cards to the user's list, so only on an empty list does it
    deal a deck of five. It changes no hash. *)
Theorem X20_initializeDeck_appends db username rs :
  deckOf (initializeDeck db username rs) username
    = deckOf db username ++ rand.Shuffle rs (length newDeckCards) swapAt newDeckCards ∧
  length (deckOf (initializeDeck db username rs) username)
    = (length (deckOf db username) + 5)%nat ∧
  hashes (initializeDeck db username rs) = hashes db ∧
  (∀ username', username ≠ username' →
     deckOf (initializeDeck db username rs) username' = deckOf db username').
Proof.
  assert (Hdeck : deckOf (initializeDeck db username rs) username
            = deckOf db username
              ++ rand.Shuffle rs (length newDeckCards) swapAt newDeckCards).
  { unfold deckOf, initializeDeck. by rewrite LRange_RPush, decide_True. }
  split_and!; [done| |done|].
  - by rewrite Hdeck, length_app, Shuffle_length.
  - intros username' Hne. unfold deckOf, initializeDeck. rewrite LRange_RPush.
    rewrite decide_False; [done|]. by intros ?%deck_key_inj.
Qed.

(** X21: on a store the handlers have produced, the leaderboard has a row
    for every username that has a deck, a wins entry or a losses entry, and
    the row of a user who has a deck shows "0" wins and the stored losses. *)
Theorem X21_leaderboard_lists_every_player db (order : list (string * string)) username :
  reachable db →
  rangeOver (HGetAll db "win") order →
  deckOf db username ≠ [] ∨ is_Some (HGet db "win" username)
    ∨ is_Some (HGet db "lose" username) →
  ∃ wins loses,
    statsRow username wins loses ∈ fetchAllUserStats db order ∧
    (deckOf db username ≠ [] → wins = "0" ∧ HGet db "lose" username = Some loses).
Proof.
  intros Hreach Horder Hknown.
  destruct (reachable_settled db username Hreach) as (_ & _ & Hdeck & _).
  assert (Hwin : is_Some (HGet db "win" username)).
  { destruct Hknown as [Hfull|[?|Hlose]]; [|done|].
    - destruct (Hdeck Hfull) as (_ & -> & _). by eexists.
    - apply (reachable_paired db Hreach). by right. }
  destruct Hwin as [wins Hwin].
  exists wins, (default "0" (HGet db "lose" username)). split.
  - apply (fetchAllUserStats_elem db order _ Horder). eauto.
  - intros Hfull. destruct (Hdeck Hfull) as (_ & Hzero & [loses Hlose]).
    rewrite Hzero in Hwin. injection Hwin as <-. by rewrite Hlose.
Qed.

Lemma X21_leaderboard_lists_every_player_witness :
  let order := map_to_list (HGetAll twoPlayers "win") in
  reachable twoPlayers ∧
  rangeOver (HGetAll twoPlayers "win") order ∧
  deckOf twoPlayers "alice" ≠ [] ∧
  ∃ wins loses, statsRow "alice" wins loses ∈ fetchAllUserStats twoPlayers order.
Proof.
  intros order.
  assert (Horder : rangeOver (HGetAll twoPlayers "win") order)
    by (unfold rangeOver; reflexivity).
  assert (Hfull : deckOf twoPlayers "alice" ≠ []) by (vm_compute; discriminate).
  split; [apply reachable_twoPlayers|]. split; [exact Horder|]. split; [exact Hfull|].
  destruct (X21_leaderboard_lists_every_player twoPlayers order "alice"
              reachable_twoPlayers Horder (or_introl Hfull)) as (wins & loses & Hrow & _).
  by exists wins, loses.
Defined.

End earlier_variant.
